(** * eslint-plugin-no-inline-multiline-types: the rule, embedded in Rocq

    Source: [lib/rules/no-inline-multiline-types.mjs].

    The rule is an ESLint visitor over a TypeScript ESTree.  The tree is an
    object graph in which every node carries a [parent] back-reference.  It is
    embedded here as an inductive tree ([Node]) together with a zipper
    ([Cursor]): a cursor is a node with the chain of its ancestors, each
    ancestor paired with the property under which the chain descends from it.
    Reading [x.parent] pops the chain, reading [x.f] pushes on it, and the
    identity test [x === y.f] of two nodes of one tree is the test that [x]
    sits under property [f] of [y]. *)

From Stdlib Require Import List String Ascii Bool Arith Lia.
Import ListNotations.

Local Open Scope string_scope.
Local Open Scope list_scope.

(** ** The syntax tree *)

(** The properties of a node that hold child nodes.  The rule reads [id],
    [key], [typeAnnotation], [returnType], [parameter], [declaration] and the
    array [params]; every other child ([body], [members], [declarations],
    [init], [value], ...) is only ever traversed and is kept in [others]. *)
Inductive step : Type :=
| s_id
| s_key
| s_typeAnnotation
| s_returnType
| s_parameter
| s_declaration
| s_params (i : nat)
| s_other (i : nat).

Definition step_eq_dec (a b : step) : {a = b} + {a <> b}.
Proof. decide equality; apply Nat.eq_dec. Defined.

Record Position : Type := mkPosition { line : nat; column : nat }.

Record SourceLocation : Type := mkLoc { start : Position; end_ : Position }.

(** A node.  [name] is [undefined] ([None]) on nodes that are not
    identifiers; an absent [params] array and an empty one behave alike in
    both places that read it, and are both [[]]. *)
#[warnings="-register-all"]
Inductive Node : Type := mkNode {
  type : string;
  name : option string;
  range : nat * nat;
  loc : SourceLocation;
  id : option Node;
  key : option Node;
  typeAnnotation : option Node;
  returnType : option Node;
  parameter : option Node;
  declaration : option Node;
  params : list Node;
  others : list Node
}.

(** [get s n] is the child of [n] under property [s]. *)
Definition get (s : step) (n : Node) : option Node :=
  match s with
  | s_id => id n
  | s_key => key n
  | s_typeAnnotation => typeAnnotation n
  | s_returnType => returnType n
  | s_parameter => parameter n
  | s_declaration => declaration n
  | s_params i => nth_error (params n) i
  | s_other i => nth_error (others n) i
  end.

(** A node in its tree: the node and its ancestors, nearest first. *)
Record Cursor : Type := mkCursor {
  focus : Node;
  up : list (step * Node)
}.

(** [c.parent] *)
Definition parent (c : Cursor) : option Cursor :=
  match up c with
  | [] => None
  | (_, p) :: up' => Some (mkCursor p up')
  end.

(** [c.f] for a node-valued property [f]. *)
Definition child (s : step) (c : Cursor) : option Cursor :=
  match get s (focus c) with
  | Some n => Some (mkCursor n ((s, focus c) :: up c))
  | None => None
  end.

Fixpoint indexed {A : Type} (i : nat) (l : list A) : list (nat * A) :=
  match l with
  | [] => []
  | a :: l' => (i, a) :: indexed (S i) l'
  end.

(** [c.params], element by element. *)
Definition paramsOf (c : Cursor) : list Cursor :=
  map (fun '(i, n) => mkCursor n ((s_params i, focus c) :: up c))
      (indexed 0 (params (focus c))).

(** The position of a node in its tree, innermost property first.  Two
    nodes of one tree are the same object exactly when their positions are
    equal. *)
Definition path (c : Cursor) : list step := map fst (up c).

Definition path_eqb (p q : list step) : bool :=
  if list_eq_dec step_eq_dec p q then true else false.

(** [x === y.s] where [y] is [x.parent]. *)
Definition sitsUnder (s : step) (c : Cursor) : bool :=
  match up c with
  | (s', _) :: _ => if step_eq_dec s s' then true else false
  | [] => false
  end.

(** [y.params.includes(x)] where [y] is [x.parent]. *)
Definition inParams (c : Cursor) : bool :=
  match up c with
  | (s_params _, _) :: _ => true
  | _ => false
  end.

(** ** Strings *)

Definition nl : string := String "010"%char EmptyString.

Definition isLower (c : ascii) : bool :=
  ((97 <=? nat_of_ascii c) && (nat_of_ascii c <=? 122))%nat.

(** [String.prototype.toUpperCase] on one code unit, as it is on the ASCII
    range (code units below 128): a lower-case letter gives its capital and
    every other unit itself.  Outside that range [toUpperCase] follows the
    Unicode tables and may give more than one unit; it is not modelled there,
    and a statement that depends on the value of [upper] carries the
    hypothesis that the unit is ASCII ([isAscii]). *)
Definition upper (c : ascii) : ascii :=
  if isLower c then ascii_of_nat (nat_of_ascii c - 32) else c.

(** [str.replace(/_([a-z])/g, (match, char) => char.toUpperCase())] *)
Fixpoint replaceSnake (s : string) : string :=
  match s with
  | EmptyString => EmptyString
  | String c rest =>
      match rest with
      | String d rest' =>
          if (c =? "_")%char && isLower d
          then String (upper d) (replaceSnake rest')
          else String c (replaceSnake rest)
      | EmptyString => String c EmptyString
      end
  end.

(** [toPascalCase(str)]; [None] is [undefined]. *)
Definition toPascalCase (str : option string) : string :=
  match str with
  | None => ""
  | Some "" => ""
  | Some s =>
      match replaceSnake s with
      | EmptyString => ""
      | String c rest => String (upper c) rest
      end
  end.

(** Truthiness of a value that is a string or [undefined]. *)
Definition truthy (o : option string) : bool :=
  match o with
  | None => false
  | Some "" => false
  | Some _ => true
  end.

(** ** The rule *)

(** What the host records for one [context.report]: the reported node, the
    message and the outcome of the [fix] callback ([None] when the callback
    returns [null]). *)
Record Fix : Type := mkFix { fix_range : nat * nat; fix_text : string }.

Record Finding : Type := mkFinding {
  f_node : Cursor;
  f_messageId : string;
  f_fix : option (list Fix)
}.

(** The host's [fixer.insertTextBefore(node, text)] and
    [fixer.replaceText(node, text)]: an insertion is a replacement of the
    empty range at the first character of the node. *)
Definition insertTextBefore (n : Cursor) (text : string) : Fix :=
  mkFix (fst (range (focus n)), fst (range (focus n))) text.

Definition replaceText (n : Cursor) (text : string) : Fix :=
  mkFix (range (focus n)) text.

Definition has (set : list string) (x : string) : bool :=
  existsb (String.eqb x) set.

Definition targetAncestorTypes : list string :=
  [ "VariableDeclaration"; "FunctionDeclaration"; "ClassDeclaration";
    "TSInterfaceDeclaration"; "TSTypeAliasDeclaration" ].

Definition validParentContextTypes : list string :=
  [ "Program"; "BlockStatement"; "ExportNamedDeclaration";
    "ExportDefaultDeclaration" ].

Definition isExport (t : string) : bool :=
  (t =? "ExportNamedDeclaration") || (t =? "ExportDefaultDeclaration").

(** [n.declaration && targetAncestorTypes.has(n.declaration.type)] *)
Definition declaresTarget (n : Node) : bool :=
  match declaration n with
  | Some d => has targetAncestorTypes (type d)
  | None => false
  end.

(** The [while (currentNode.parent)] loop of [findInsertionPointAncestor]:
    [cur] with ancestors [ups] is [currentNode]; running out of ancestors is
    the loop condition turning false, and both that and the [break] at the
    program root end in [return null]. *)
Fixpoint ancestorLoop (startNode : Cursor) (cur : Node)
    (ups : list (step * Node)) : option Cursor :=
  match ups with
  | [] => None
  | (_, par) :: ups' =>
      if has targetAncestorTypes (type cur)
         && has validParentContextTypes (type par)
      then
        if isExport (type par)
        then Some (mkCursor par ups')
        else Some (mkCursor cur ups)
      else if isExport (type cur) && declaresTarget cur
      then Some (mkCursor cur ups)
      else if type par =? "Program"
      then
        if has targetAncestorTypes (type (focus startNode))
        then Some startNode
        else None
      else ancestorLoop startNode par ups'
  end.

Definition findInsertionPointAncestor (startNode : Cursor) : option Cursor :=
  ancestorLoop startNode (focus startNode) (up startNode).

(** How the body of the [try] block of [deriveTypeName] ends: with a
    [return], by falling out of the last [if], or with a [TypeError]. *)
Inductive Completion : Type :=
| Return (s : string)
| FallThrough
| Throw.

Definition isFunction (t : string) : bool :=
  (t =? "FunctionDeclaration") || (t =? "FunctionExpression")
  || (t =? "ArrowFunctionExpression").

(** [n.id?.name] *)
Definition idName (n : Node) : option string :=
  match id n with
  | Some i => name i
  | None => None
  end.

(** Case 6 of [deriveTypeName]; [par] is the function.  Reading
    [parent.parent.id.type] of a declarator without [id] throws. *)
Definition deriveReturnTypeName (par : Cursor) : Completion :=
  let funcName := idName (focus par) in
  let byFunction :=
    Return (toPascalCase (if truthy funcName then funcName
                          else Some "Function") ++ "ReturnType") in
  if truthy funcName then byFunction
  else
    match parent par with
    | Some pp =>
        if type (focus pp) =? "VariableDeclarator" then
          match id (focus pp) with
          | Some i =>
              if type i =? "Identifier"
              then Return (toPascalCase (name i) ++ "ReturnType")
              else byFunction
          | None => Throw
          end
        else byFunction
    | None => byFunction
    end.

(** Cases 5 to 7. *)
Definition deriveFromParent (a par : Cursor) : Completion :=
  if (type (focus par) =? "PropertyDefinition")
     && match key (focus par) with
        | Some k => type k =? "Identifier"
        | None => false
        end
  then Return (toPascalCase
                 (match key (focus par) with
                  | Some k => name k
                  | None => None
                  end) ++ "Type")
  else if isFunction (type (focus par)) && sitsUnder s_returnType a
  then deriveReturnTypeName par
  else if (type (focus par) =? "TSParameterProperty")
          && match parameter (focus par) with
             | Some p => type p =? "Identifier"
             | None => false
             end
  then Return (toPascalCase
                 (match parameter (focus par) with
                  | Some p => name p
                  | None => None
                  end) ++ "Type")
  else FallThrough.

(** Cases 3 and 4, then the rest. *)
Definition derivePattern (a par : Cursor) : Completion :=
  match parent par with
  | Some pp =>
      if (type (focus par) =? "ObjectPattern") && isFunction (type (focus pp))
      then
        let funcName := idName (focus pp) in
        Return (if truthy funcName
                then toPascalCase funcName ++ "Props"
                else "PropsType")
      else if (type (focus par) =? "ArrayPattern")
              && isFunction (type (focus pp))
      then Return "ParamsType"
      else deriveFromParent a par
  | None => deriveFromParent a par
  end.

(** The body of the [try] block; [par] is [typeAnnotationNode.parent]. *)
Definition deriveTypeNameTry (a par : Cursor) : Completion :=
  match parent par with
  | Some pp =>
      if (type (focus par) =? "Identifier")
         && (type (focus pp) =? "VariableDeclarator")
      then Return (toPascalCase (name (focus par)) ++ "Type")
      else if (type (focus par) =? "Identifier")
              && (isFunction (type (focus pp))
                  || (type (focus pp) =? "TSParameterProperty"))
      then
        if inParams par
        then Return (toPascalCase (name (focus par)) ++ "Type")
        else if (type (focus pp) =? "TSParameterProperty")
                && sitsUnder s_parameter par
        then Return (toPascalCase (name (focus par)) ++ "Type")
        else derivePattern a par
      else derivePattern a par
  | None => derivePattern a par
  end.

Definition deriveTypeName (typeAnnotationNode : Cursor) : string :=
  match parent typeAnnotationNode with
  | None => "ExtractedType"
  | Some par =>
      match deriveTypeNameTry typeAnnotationNode par with
      | Return s => s
      | FallThrough => "ExtractedType"
      | Throw => "ExtractedType"
      end
  end.

Section create.

(** [context.getSourceCode()]: the text of the file. *)
Variable sourceCode : string.

(** [sourceCode.getText(node)] *)
Definition getText (n : Cursor) : string :=
  substring (fst (range (focus n)))
            (snd (range (focus n)) - fst (range (focus n))) sourceCode.

(** The [fix] callback of the report. *)
Definition fixOf (typeAnnotationNode literalNode : Cursor)
  : option (list Fix) :=
  let newTypeName := deriveTypeName typeAnnotationNode in
  let literalText := getText literalNode in
  let typeAliasString :=
    ("type " ++ newTypeName ++ " = " ++ literalText ++ ";" ++ nl ++ nl)%string
  in
  match findInsertionPointAncestor typeAnnotationNode with
  | None => None
  | Some insertionAncestor =>
      let insertFix := insertTextBefore insertionAncestor typeAliasString in
      let replaceFix := replaceText literalNode newTypeName in
      Some [insertFix; replaceFix]
  end.

(** The findings the call reports, in order. *)
Definition checkMultilineLiteralInAnnotation
    (typeAnnotationNode : option Cursor) : list Finding :=
  match typeAnnotationNode with
  | None => []
  | Some a =>
      if negb (type (focus a) =? "TSTypeAnnotation") then []
      else
        match child s_typeAnnotation a with
        | Some literalNode =>
            if type (focus literalNode) =? "TSTypeLiteral"
            then [ mkFinding literalNode "inlineType" (fixOf a literalNode) ]
            else []
        | None => []
        end
  end.

(** The visitor map. *)
Definition VariableDeclarator (node : Cursor) : list Finding :=
  match child s_id node with
  | Some i =>
      match child s_typeAnnotation i with
      | Some a => checkMultilineLiteralInAnnotation (Some a)
      | None => []
      end
  | None => []
  end.

Definition PropertyDefinition (node : Cursor) : list Finding :=
  match child s_typeAnnotation node with
  | Some a => checkMultilineLiteralInAnnotation (Some a)
  | None => []
  end.

Definition visitParam (param : Cursor) : list Finding :=
  match child s_typeAnnotation param with
  | Some a => checkMultilineLiteralInAnnotation (Some a)
  | None =>
      if type (focus param) =? "TSParameterProperty" then
        match child s_parameter param with
        | Some p =>
            match child s_typeAnnotation p with
            | Some a => checkMultilineLiteralInAnnotation (Some a)
            | None => []
            end
        | None => []
        end
      else []
  end.

Definition function (node : Cursor) : list Finding :=
  match child s_returnType node with
  | Some a => checkMultilineLiteralInAnnotation (Some a)
  | None => []
  end
  ++ flat_map visitParam (paramsOf node).

(** The host's dispatch on entering a node: the handler whose selector
    matches the node is called; [:function] selects the three function
    kinds. *)
Definition visit (node : Cursor) : list Finding :=
  if type (focus node) =? "VariableDeclarator" then VariableDeclarator node
  else if type (focus node) =? "PropertyDefinition"
  then PropertyDefinition node
  else if isFunction (type (focus node)) then function node
  else [].

End create.

(** ** The traversal *)

(** The children of a node, each with the property it sits under. *)
Definition optChild (s : step) (o : option Node) : list (step * Node) :=
  match o with
  | Some m => [(s, m)]
  | None => []
  end.

Definition arrChildren (mk : nat -> step) (l : list Node)
  : list (step * Node) :=
  map (fun '(i, m) => (mk i, m)) (indexed 0 l).

Definition children (n : Node) : list (step * Node) :=
  optChild s_id (id n) ++ optChild s_key (key n)
  ++ optChild s_typeAnnotation (typeAnnotation n)
  ++ optChild s_returnType (returnType n)
  ++ optChild s_parameter (parameter n)
  ++ optChild s_declaration (declaration n)
  ++ arrChildren s_params (params n) ++ arrChildren s_other (others n).

(** The host enters every node of the tree once, parents before children.
    The order among siblings is the host's and no statement below depends on
    it. *)
Fixpoint walk (ups : list (step * Node)) (n : Node) {struct n}
  : list Cursor :=
  let sub (s : step) (o : option Node) :=
    match o with
    | Some m => walk ((s, n) :: ups) m
    | None => []
    end in
  let subs (mk : nat -> step) :=
    fix go (i : nat) (l : list Node) : list Cursor :=
      match l with
      | [] => []
      | m :: l' => walk ((mk i, n) :: ups) m ++ go (S i) l'
      end in
  mkCursor n ups ::
    sub s_id (id n) ++ sub s_key (key n)
    ++ sub s_typeAnnotation (typeAnnotation n)
    ++ sub s_returnType (returnType n)
    ++ sub s_parameter (parameter n)
    ++ sub s_declaration (declaration n)
    ++ subs s_params 0 (params n) ++ subs s_other 0 (others n).

(** One run of the rule over a file: the findings of every handler call. *)
Definition runRule (sourceCode : string) (program : Node) : list Finding :=
  flat_map (visit sourceCode) (walk [] program).

(** The host applying the edits of one fix to the text: the edits are taken
    in the order of their ranges, which do not overlap. *)
Fixpoint applyFrom (pos : nat) (edits : list Fix) (text : string) : string :=
match edits with
| [] => substring pos (String.length text - pos) text
| e :: rest =>
    (substring pos (fst (fix_range e) - pos) text ++ fix_text e
     ++ applyFrom (snd (fix_range e)) rest text)%string
end.

Definition applyFix (edits : option (list Fix)) (text : string) : string :=
match edits with
| Some es => applyFrom 0 es text
| None => text
end.

(** ** Notions the statements are written with *)

(** *** Nodes of one tree *)

(** The part of the traversal of [n] that lies under one of its children. *)
Definition descend (ups : list (step * Node)) (n : Node)
    (sm : step * Node) : list Cursor :=
  walk ((fst sm, n) :: ups) (snd sm).

(** [Reaches ups n c]: [c] is [n] (whose ancestors are [ups]) or one of
    its descendants. *)
Inductive Reaches (ups : list (step * Node)) (n : Node) : Cursor -> Prop :=
| reach_here : Reaches ups n (mkCursor n ups)
| reach_down s m c :
    get s n = Some m -> Reaches ((s, n) :: ups) m c -> Reaches ups n c.

(** [P] holds of the node, when there is one. *)
Definition optAll (P : Node -> Prop) (o : option Node) : Prop :=
  match o with
  | Some m => P m
  | None => True
  end.

(** The property a step goes through, by its place in [children]. *)
Definition tag (s : step) : nat :=
  match s with
  | s_id => 0
  | s_key => 1
  | s_typeAnnotation => 2
  | s_returnType => 3
  | s_parameter => 4
  | s_declaration => 5
  | s_params _ => 6
  | s_other _ => 7
  end.

(** No step occurs twice in [l], and all go through property [k] or a later
    one. *)
Definition Above (k : nat) (l : list step) : Prop :=
  NoDup l /\ forall x, In x l -> k <= tag x.

(** *** What the visitor inspects *)

Definition optList {A : Type} (o : option A) : list A :=
match o with
| Some a => [a]
| None => []
end.

(** The annotation the [:function] handler hands over for one parameter. *)
Definition paramSites (param : Cursor) : list Cursor :=
match child s_typeAnnotation param with
| Some a => [a]
| None =>
    if type (focus param) =? "TSParameterProperty" then
      match child s_parameter param with
      | Some p => optList (child s_typeAnnotation p)
      | None => []
      end
    else []
end.

(** The annotation sites of a node: the annotations its handler hands to
    [checkMultilineLiteralInAnnotation], in the order of the calls. *)
Definition sites (node : Cursor) : list Cursor :=
if type (focus node) =? "VariableDeclarator" then
  match child s_id node with
  | Some i => optList (child s_typeAnnotation i)
  | None => []
  end
else if type (focus node) =? "PropertyDefinition" then
  optList (child s_typeAnnotation node)
else if isFunction (type (focus node)) then
  optList (child s_returnType node) ++ flat_map paramSites (paramsOf node)
else [].

(** The nodes a handler is registered for. *)
Definition selected (t : string) : bool :=
(t =? "VariableDeclarator") || (t =? "PropertyDefinition") || isFunction t.

(** An annotation whose type is an object-type literal. *)
Definition literalOf (a : Cursor) : option Cursor :=
if type (focus a) =? "TSTypeAnnotation" then
  match child s_typeAnnotation a with
  | Some l => if type (focus l) =? "TSTypeLiteral" then Some l else None
  | None => None
  end
else None.

(** Where an annotation site lies, seen from the node whose handler
    inspects it. *)
Inductive Slot (q a : Cursor) : Prop :=
| slot_binding :
    type (focus q) = "VariableDeclarator" ->
    path a = s_typeAnnotation :: s_id :: path q -> Slot q a
| slot_property :
    type (focus q) = "PropertyDefinition" ->
    path a = s_typeAnnotation :: path q -> Slot q a
| slot_return :
    isFunction (type (focus q)) = true ->
    path a = s_returnType :: path q -> Slot q a
| slot_param i :
    isFunction (type (focus q)) = true ->
    path a = s_typeAnnotation :: s_params i :: path q -> Slot q a
| slot_paramProperty i :
    isFunction (type (focus q)) = true ->
    path a = s_typeAnnotation :: s_parameter :: s_params i :: path q ->
    Slot q a.

(** In a tree the parser builds, a class property is an element of the body
    of a class body. *)
Definition propertyInClassBody (c : Cursor) : bool :=
match up c with
| (s_other _, p) :: _ => type p =? "ClassBody"
| _ => false
end.

Definition propertiesInClassBodies (program : Node) : bool :=
forallb (fun c => implb (type (focus c) =? "PropertyDefinition")
                        (propertyInClassBody c))
        (walk [] program).

Definition keyedAt (l : Cursor) (f : Finding) : bool :=
path_eqb (path (f_node f)) (path l).

Definition unselected (X : Cursor) : bool :=
forallb (fun c => negb (selected (type (focus c))))
        (walk (up X) (focus X)).

(** The steps from a node down to a literal its handler reports. *)
Definition slotSteps (pre : list step) : Prop :=
pre = [s_typeAnnotation; s_typeAnnotation; s_id]
\/ pre = [s_typeAnnotation; s_typeAnnotation]
\/ pre = [s_typeAnnotation; s_returnType]
\/ (exists i, pre = [s_typeAnnotation; s_typeAnnotation; s_params i])
\/ (exists i, pre = [s_typeAnnotation; s_typeAnnotation; s_parameter;
                     s_params i]).

(** The spec's multiline test on a node: its range ends on a later line than
    it starts.  The rule has no counterpart of it. *)
Definition spansMultipleLines (n : Node) : bool :=
(line (start (loc n)) <? line (end_ (loc n)))%nat.

(** *** The naming cases of the spec, read on the tree *)

(** [a] is the annotation; each case is a test on its parent and
    grandparent. *)
Definition parentType (c : Cursor) : string :=
match parent c with
| Some p => type (focus p)
| None => ""
end.

Definition grandparentType (c : Cursor) : string :=
match parent c with
| Some p => parentType p
| None => ""
end.

(** 1. Variable binding with a simple identifier target. *)
Definition caseVariableBinding (a : Cursor) : bool :=
(parentType a =? "Identifier") && (grandparentType a =? "VariableDeclarator").

(** 2. Function or parameter-property parameter that is a simple
    identifier. *)
Definition caseIdentifierParameter (a : Cursor) : bool :=
match parent a with
| Some par =>
    ((type (focus par) =? "Identifier")
     && ((isFunction (parentType par) && inParams par)
         || ((parentType par =? "TSParameterProperty")
             && (inParams par || sitsUnder s_parameter par))))
    || ((type (focus par) =? "TSParameterProperty")
        && match parameter (focus par) with
           | Some p => type p =? "Identifier"
           | None => false
           end)
| None => false
end.

(** 3. Destructured object parameter. *)
Definition caseObjectPatternParameter (a : Cursor) : bool :=
(parentType a =? "ObjectPattern") && isFunction (grandparentType a).

(** 4. Destructured array parameter. *)
Definition caseArrayPatternParameter (a : Cursor) : bool :=
(parentType a =? "ArrayPattern") && isFunction (grandparentType a).

(** 5. Class property with identifier key. *)
Definition caseClassProperty (a : Cursor) : bool :=
match parent a with
| Some par =>
    (type (focus par) =? "PropertyDefinition")
    && match key (focus par) with
       | Some k => type k =? "Identifier"
       | None => false
       end
| None => false
end.

(** 6. Function return type. *)
Definition caseFunctionReturn (a : Cursor) : bool :=
isFunction (parentType a) && sitsUnder s_returnType a.


(** *** Climbing to the insertion point *)

(** One round of the loop with current node [cur] and parent [par] that
    neither returns nor stops at the program root. *)
Definition inert (cur par : Node) : bool :=
negb (has targetAncestorTypes (type cur)
      && has validParentContextTypes (type par))
&& negb (isExport (type cur) && declaresTarget cur)
&& negb (type par =? "Program").

(** The loop climbs the whole of [chain], starting at [cur]. *)
Fixpoint climbs (cur : Node) (chain : list (step * Node)) : bool :=
match chain with
| [] => true
| (_, par) :: rest => inert cur par && climbs par rest
end.

(** The node the loop is at after climbing [chain] from [cur]. *)
Definition topOf (cur : Node) (chain : list (step * Node)) : Node :=
last (map snd chain) cur.

(** The proper ancestors of a node, nearest first. *)
Fixpoint ancestorsOf (ups : list (step * Node)) : list Cursor :=
match ups with
| [] => []
| (_, p) :: ups' => mkCursor p ups' :: ancestorsOf ups'
end.

Definition isParameterKind (t : string) : bool :=
has [ "Identifier"; "ObjectPattern"; "ArrayPattern"; "RestElement";
      "AssignmentPattern" ] t.

(** The nodes between an annotation and the class body it belongs to, for
    the annotation of a class property, of a parameter of a method and of
    the parameter of a parameter property. *)
Definition classMemberChain (chain : list (step * Node)) : bool :=
match chain with
| [(s_typeAnnotation, p)] => type p =? "PropertyDefinition"
| [(s_typeAnnotation, p); (s_params _, fn); (_, m)] =>
    isParameterKind (type p) && (type fn =? "FunctionExpression")
    && (type m =? "MethodDefinition")
| [(s_typeAnnotation, p); (s_parameter, pp); (s_params _, fn); (_, m)] =>
    isParameterKind (type p) && (type pp =? "TSParameterProperty")
    && (type fn =? "FunctionExpression") && (type m =? "MethodDefinition")
| _ => false
end.

(** *** Names *)

(** No underscore of [s] is followed by a lower-case letter. *)
Fixpoint noSnake (s : string) : bool :=
match s with
| EmptyString => true
| String c rest =>
    match rest with
    | String d _ => negb ((c =? "_")%char && isLower d) && noSnake rest
    | EmptyString => true
    end
end.

Fixpoint noUnderscore (s : string) : bool :=
match s with
| EmptyString => true
| String c rest => negb (c =? "_")%char && noUnderscore rest
end.

(** The code units on which [upper] is [toUpperCase]. *)
Definition isAscii (c : ascii) : bool := (nat_of_ascii c <? 128)%nat.

(** [s] is empty or begins with an ASCII character. *)
Definition asciiInitial (s : string) : bool :=
match s with
| String c _ => isAscii c
| EmptyString => true
end.

(** [s] ends in [Type] or in [Props]. *)
Definition endsInTypeOrProps (s : string) : Prop :=
exists p, s = (p ++ "Type")%string \/ s = (p ++ "Props")%string.

(** *** Ranges *)

(** Along the ancestors [ups] of [n], no node starts before its parent. *)
Fixpoint startsNest (n : Node) (ups : list (step * Node)) : bool :=
match ups with
| [] => true
| (_, p) :: rest => (fst (range p) <=? fst (range n))%nat && startsNest p rest
end.

(** *** Positions *)






(** ** Programs used below *)

Module Examples.

Definition at_ (sl sc el ec : nat) : SourceLocation :=
  mkLoc (mkPosition sl sc) (mkPosition el ec).

Definition leaf (ty : string) (r : nat * nat) (l : SourceLocation) : Node :=
  mkNode ty None r l None None None None None None [] [].

Definition ident (nm : string) (r : nat * nat) (l : SourceLocation)
    (ann : option Node) : Node :=
  mkNode "Identifier" (Some nm) r l None None ann None None None [] [].

(** [put s c n] is [n] with [c] as its child under [s]; array properties
    grow at the end. *)
Definition put (s : step) (c : Node) (n : Node) : Node :=
  match n with
  | mkNode ty nm r l i k ta rt pm d ps os =>
      match s with
      | s_id => mkNode ty nm r l (Some c) k ta rt pm d ps os
      | s_key => mkNode ty nm r l i (Some c) ta rt pm d ps os
      | s_typeAnnotation => mkNode ty nm r l i k (Some c) rt pm d ps os
      | s_returnType => mkNode ty nm r l i k ta (Some c) pm d ps os
      | s_parameter => mkNode ty nm r l i k ta rt (Some c) d ps os
      | s_declaration => mkNode ty nm r l i k ta rt pm (Some c) ps os
      | s_params _ => mkNode ty nm r l i k ta rt pm d (ps ++ [c]) os
      | s_other _ => mkNode ty nm r l i k ta rt pm d ps (os ++ [c])
      end
  end.

(** An annotation [: T]. *)
Definition annot (r : nat * nat) (l : SourceLocation) (t : Node) : Node :=
  put s_typeAnnotation t (leaf "TSTypeAnnotation" r l).

(** [let cfg: { host: string; port: number };] *)
Definition cfg_text : string := "let cfg: { host: string; port: number };".

Definition cfg_literal : Node := leaf "TSTypeLiteral" (9, 39) (at_ 1 9 1 39).

Definition cfg_declarator : Node :=
  put s_id
    (ident "cfg" (4, 39) (at_ 1 4 1 39)
       (Some (annot (7, 39) (at_ 1 7 1 39) cfg_literal)))
    (leaf "VariableDeclarator" (4, 39) (at_ 1 4 1 39)).

Definition cfg_program : Node :=
  put (s_other 0)
    (put (s_other 0) cfg_declarator
       (leaf "VariableDeclaration" (0, 40) (at_ 1 0 1 40)))
    (leaf "Program" (0, 40) (at_ 1 0 1 40)).

(** The node reached from [c] along [steps], outermost step first. *)
Fixpoint descendFrom (c : Cursor) (steps : list step) : Cursor :=
match steps with
| [] => c
| s :: rest =>
    match child s c with
    | Some d => descendFrom d rest
    | None => c
    end
end.

Definition cfg_annotation : Cursor :=
descendFrom (mkCursor cfg_program [])
  [s_other 0; s_other 0; s_id; s_typeAnnotation].

(** Below, the members of a literal and the bodies of functions are left
    out wherever they hold nothing a handler is registered for. *)

(** [[
let x: {
  a: {
    b: string;
  };
};
]] *)
Definition nested_text : string :=
"let x: {" ++ nl ++ "  a: {" ++ nl ++ "    b: string;" ++ nl ++ "  };" ++ nl
++ "};".

Definition nested_inner : Node :=
put (s_other 0)
  (put s_typeAnnotation
     (annot (21, 29) (at_ 3 5 3 13)
        (leaf "TSStringKeyword" (23, 29) (at_ 3 7 3 13)))
     (put s_key (ident "b" (20, 21) (at_ 3 4 3 5) None)
        (leaf "TSPropertySignature" (20, 30) (at_ 3 4 3 14))))
  (leaf "TSTypeLiteral" (14, 34) (at_ 2 5 4 3)).

Definition nested_member : Node :=
put s_typeAnnotation (annot (12, 34) (at_ 2 3 4 3) nested_inner)
  (put s_key (ident "a" (11, 12) (at_ 2 2 2 3) None)
     (leaf "TSPropertySignature" (11, 35) (at_ 2 2 4 4))).

Definition nested_outer : Node :=
put (s_other 0) nested_member (leaf "TSTypeLiteral" (7, 37) (at_ 1 7 5 1)).

Definition nested_program : Node :=
put (s_other 0)
  (put (s_other 0)
     (put s_id
        (ident "x" (4, 37) (at_ 1 4 5 1)
           (Some (annot (5, 37) (at_ 1 5 5 1) nested_outer)))
        (leaf "VariableDeclarator" (4, 37) (at_ 1 4 5 1)))
     (leaf "VariableDeclaration" (0, 38) (at_ 1 0 5 2)))
  (leaf "Program" (0, 38) (at_ 1 0 5 2)).

Definition nested_declarator : Cursor :=
descendFrom (mkCursor nested_program []) [s_other 0; s_other 0].

Definition nested_annotation : Cursor :=
descendFrom nested_declarator [s_id; s_typeAnnotation].

Definition nested_literal : Cursor :=
descendFrom nested_annotation [s_typeAnnotation].

Definition nested_member_cursor : Cursor :=
descendFrom nested_literal [s_other 0].

(** [[
type Wrapper = {
  kind: 'wrapper';
  content: {
    text: string;
    value: number;
  }
}
let cfg: { host: string };
]] *)
Definition wrapper_text : string :=
"type Wrapper = {" ++ nl ++ "  kind: 'wrapper';" ++ nl ++ "  content: {" ++ nl
++ "    text: string;" ++ nl ++ "    value: number;" ++ nl ++ "  }" ++ nl
++ "}" ++ nl ++ "let cfg: { host: string };".

Definition wrapper_content : Node :=
put s_typeAnnotation
  (annot (45, 89) (at_ 3 9 6 3)
     (put (s_other 1) (leaf "TSPropertySignature" (71, 85) (at_ 5 4 5 18))
        (put (s_other 0) (leaf "TSPropertySignature" (53, 66) (at_ 4 4 4 17))
           (leaf "TSTypeLiteral" (47, 89) (at_ 3 11 6 3)))))
  (put s_key (ident "content" (38, 45) (at_ 3 2 3 9) None)
     (leaf "TSPropertySignature" (38, 89) (at_ 3 2 6 3))).

Definition wrapper_body : Node :=
put (s_other 1) wrapper_content
  (put (s_other 0) (leaf "TSPropertySignature" (19, 35) (at_ 2 2 2 18))
     (leaf "TSTypeLiteral" (15, 91) (at_ 1 15 7 1))).

Definition wrapper_program : Node :=
put (s_other 1)
  (put (s_other 0)
     (put s_id
        (ident "cfg" (96, 117) (at_ 8 4 8 25)
           (Some (annot (99, 117) (at_ 8 7 8 25)
                    (leaf "TSTypeLiteral" (101, 117) (at_ 8 9 8 25)))))
        (leaf "VariableDeclarator" (96, 117) (at_ 8 4 8 25)))
     (leaf "VariableDeclaration" (92, 118) (at_ 8 0 8 26)))
  (put (s_other 0)
     (put s_typeAnnotation wrapper_body
        (put s_id (ident "Wrapper" (5, 12) (at_ 1 5 1 12) None)
           (leaf "TSTypeAliasDeclaration" (0, 91) (at_ 1 0 7 1))))
     (leaf "Program" (0, 118) (at_ 1 0 8 26))).

Definition wrapper_alias : Cursor :=
descendFrom (mkCursor wrapper_program []) [s_other 0].

Definition wrapper_literal : Cursor :=
descendFrom wrapper_alias [s_typeAnnotation].

Definition wrapper_cfg_annotation : Cursor :=
descendFrom (mkCursor wrapper_program [])
  [s_other 1; s_other 0; s_id; s_typeAnnotation].

Definition wrapper_cfg_literal : Cursor :=
descendFrom wrapper_cfg_annotation [s_typeAnnotation].

(** [[
function fetchData(): {
  data: string[];
  error: Error | null;
  status: number;
} {
  return { data: [], error: null, status: 200 };
}
]] *)
Definition fetchData_program : Node :=
put (s_other 0)
  (put (s_other 0) (leaf "BlockStatement" (85, 137) (at_ 5 2 7 1))
     (put s_returnType
        (annot (20, 84) (at_ 1 20 5 1)
           (leaf "TSTypeLiteral" (22, 84) (at_ 1 22 5 1)))
        (put s_id (ident "fetchData" (9, 18) (at_ 1 9 1 18) None)
           (leaf "FunctionDeclaration" (0, 137) (at_ 1 0 7 1)))))
  (leaf "Program" (0, 137) (at_ 1 0 7 1)).

Definition fetchData_annotation : Cursor :=
descendFrom (mkCursor fetchData_program []) [s_other 0; s_returnType].

(** [[
function PureSendButton({ submitForm, input }: {
  submitForm: () => void;
  input: string;
}) {}
]] *)
Definition sendButton_program : Node :=
put (s_other 0)
  (put (s_other 0) (leaf "BlockStatement" (95, 97) (at_ 4 3 4 5))
     (put (s_params 0)
        (put s_typeAnnotation
           (annot (45, 93) (at_ 1 45 4 1)
              (leaf "TSTypeLiteral" (47, 93) (at_ 1 47 4 1)))
           (leaf "ObjectPattern" (24, 93) (at_ 1 24 4 1)))
        (put s_id (ident "PureSendButton" (9, 23) (at_ 1 9 1 23) None)
           (leaf "FunctionDeclaration" (0, 97) (at_ 1 0 4 5)))))
  (leaf "Program" (0, 97) (at_ 1 0 4 5)).

Definition sendButton_annotation : Cursor :=
descendFrom (mkCursor sendButton_program [])
  [s_other 0; s_params 0; s_typeAnnotation].

(** [[
export default (x: { a: number }) => x;
let cfg: { host: string };
]] *)
Definition arrow_text : string :=
"export default (x: { a: number }) => x;" ++ nl
++ "let cfg: { host: string };".

Definition arrow_program : Node :=
put (s_other 1)
  (put (s_other 0)
     (put s_id
        (ident "cfg" (44, 65) (at_ 2 4 2 25)
           (Some (annot (47, 65) (at_ 2 7 2 25)
                    (leaf "TSTypeLiteral" (49, 65) (at_ 2 9 2 25)))))
        (leaf "VariableDeclarator" (44, 65) (at_ 2 4 2 25)))
     (leaf "VariableDeclaration" (40, 66) (at_ 2 0 2 26)))
  (put (s_other 0)
     (put s_declaration
        (put (s_other 0) (ident "x" (37, 38) (at_ 1 37 1 38) None)
           (put (s_params 0)
              (ident "x" (16, 32) (at_ 1 16 1 32)
                 (Some (annot (17, 32) (at_ 1 17 1 32)
                          (leaf "TSTypeLiteral" (19, 32) (at_ 1 19 1 32)))))
              (leaf "ArrowFunctionExpression" (15, 38) (at_ 1 15 1 38))))
        (leaf "ExportDefaultDeclaration" (0, 39) (at_ 1 0 1 39)))
     (leaf "Program" (0, 66) (at_ 1 0 2 26))).

Definition arrow_function : Cursor :=
descendFrom (mkCursor arrow_program []) [s_other 0; s_declaration].

Definition arrow_annotation : Cursor :=
descendFrom arrow_function [s_params 0; s_typeAnnotation].

Definition arrow_cfg_declarator : Cursor :=
descendFrom (mkCursor arrow_program []) [s_other 1; s_other 0].

Definition arrow_cfg_annotation : Cursor :=
descendFrom arrow_cfg_declarator [s_id; s_typeAnnotation].

(** [const C = class { p: { x: number }; };] *)
Definition classExpr_program : Node :=
put (s_other 0)
  (put (s_other 0)
     (put (s_other 0)
        (put (s_other 0)
           (put (s_other 0)
              (put s_typeAnnotation
                 (annot (19, 34) (at_ 1 19 1 34)
                    (leaf "TSTypeLiteral" (21, 34) (at_ 1 21 1 34)))
                 (put s_key (ident "p" (18, 19) (at_ 1 18 1 19) None)
                    (leaf "PropertyDefinition" (18, 35) (at_ 1 18 1 35))))
              (leaf "ClassBody" (16, 37) (at_ 1 16 1 37)))
           (leaf "ClassExpression" (10, 37) (at_ 1 10 1 37)))
        (put s_id (ident "C" (6, 7) (at_ 1 6 1 7) None)
           (leaf "VariableDeclarator" (6, 37) (at_ 1 6 1 37))))
     (leaf "VariableDeclaration" (0, 38) (at_ 1 0 1 38)))
  (leaf "Program" (0, 38) (at_ 1 0 1 38)).

Definition classExpr_body : Cursor :=
descendFrom (mkCursor classExpr_program [])
  [s_other 0; s_other 0; s_other 0; s_other 0].

Definition classExpr_annotation : Cursor :=
descendFrom classExpr_body [s_other 0; s_typeAnnotation].

(** [export class A { p: { x: number }; }] *)
Definition exportClass_program : Node :=
put (s_other 0)
  (put s_declaration
     (put (s_other 0)
        (put (s_other 0)
           (put s_typeAnnotation
              (annot (18, 33) (at_ 1 18 1 33)
                 (leaf "TSTypeLiteral" (20, 33) (at_ 1 20 1 33)))
              (put s_key (ident "p" (17, 18) (at_ 1 17 1 18) None)
                 (leaf "PropertyDefinition" (17, 34) (at_ 1 17 1 34))))
           (leaf "ClassBody" (15, 36) (at_ 1 15 1 36)))
        (put s_id (ident "A" (13, 14) (at_ 1 13 1 14) None)
           (leaf "ClassDeclaration" (7, 36) (at_ 1 7 1 36))))
     (leaf "ExportNamedDeclaration" (0, 36) (at_ 1 0 1 36)))
  (leaf "Program" (0, 36) (at_ 1 0 1 36)).

Definition exportClass_wrapper : Cursor :=
descendFrom (mkCursor exportClass_program []) [s_other 0].

Definition exportClass_body : Cursor :=
descendFrom exportClass_wrapper [s_declaration; s_other 0].

Definition exportClass_annotation : Cursor :=
descendFrom exportClass_body [s_other 0; s_typeAnnotation].

(** [class D { constructor(p: { x: number }) {} }] *)
Definition ctor_text : string :=
"class D { constructor(p: { x: number }) {} }".

Definition ctor_program : Node :=
put (s_other 0)
  (put (s_other 0)
     (put (s_other 0)
        (put (s_other 0)
           (put (s_other 0) (leaf "BlockStatement" (40, 42) (at_ 1 40 1 42))
              (put (s_params 0)
                 (ident "p" (22, 38) (at_ 1 22 1 38)
                    (Some (annot (23, 38) (at_ 1 23 1 38)
                             (leaf "TSTypeLiteral" (25, 38)
                                (at_ 1 25 1 38)))))
                 (leaf "FunctionExpression" (21, 42) (at_ 1 21 1 42))))
           (put s_key (ident "constructor" (10, 21) (at_ 1 10 1 21) None)
              (leaf "MethodDefinition" (10, 42) (at_ 1 10 1 42))))
        (leaf "ClassBody" (8, 44) (at_ 1 8 1 44)))
     (put s_id (ident "D" (6, 7) (at_ 1 6 1 7) None)
        (leaf "ClassDeclaration" (0, 44) (at_ 1 0 1 44))))
  (leaf "Program" (0, 44) (at_ 1 0 1 44)).

(** [class M { constructor(private config: { url: string }) {} }] *)
Definition paramProp_text : string :=
"class M { constructor(private config: { url: string }) {} }".

Definition paramProp_program : Node :=
put (s_other 0)
  (put (s_other 0)
     (put (s_other 0)
        (put (s_other 0)
           (put (s_other 0) (leaf "BlockStatement" (55, 57) (at_ 1 55 1 57))
              (put (s_params 0)
                 (put s_parameter
                    (ident "config" (30, 53) (at_ 1 30 1 53)
                       (Some (annot (36, 53) (at_ 1 36 1 53)
                                (leaf "TSTypeLiteral" (38, 53)
                                   (at_ 1 38 1 53)))))
                    (leaf "TSParameterProperty" (22, 53) (at_ 1 22 1 53)))
                 (leaf "FunctionExpression" (21, 57) (at_ 1 21 1 57))))
           (put s_key (ident "constructor" (10, 21) (at_ 1 10 1 21) None)
              (leaf "MethodDefinition" (10, 57) (at_ 1 10 1 57))))
        (leaf "ClassBody" (8, 59) (at_ 1 8 1 59)))
     (put s_id (ident "M" (6, 7) (at_ 1 6 1 7) None)
        (leaf "ClassDeclaration" (0, 59) (at_ 1 0 1 59))))
  (leaf "Program" (0, 59) (at_ 1 0 1 59)).

Definition paramProp_identifier : Cursor :=
descendFrom (mkCursor paramProp_program [])
  [s_other 0; s_other 0; s_other 0; s_other 0; s_params 0; s_parameter].

Definition paramProp_annotation : Cursor :=
descendFrom paramProp_identifier [s_typeAnnotation].

Definition ctor_identifier : Cursor :=
descendFrom (mkCursor ctor_program [])
  [s_other 0; s_other 0; s_other 0; s_other 0; s_params 0].

Definition ctor_annotation : Cursor :=
descendFrom ctor_identifier [s_typeAnnotation].

(** [foo((x: { a: number }) => x);] *)
Definition callback_text : string := "foo((x: { a: number }) => x);".

Definition callback_program : Node :=
put (s_other 0)
  (put (s_other 0)
     (put (s_other 1)
        (put (s_other 0) (ident "x" (26, 27) (at_ 1 26 1 27) None)
           (put (s_params 0)
              (ident "x" (5, 21) (at_ 1 5 1 21)
                 (Some (annot (6, 21) (at_ 1 6 1 21)
                          (leaf "TSTypeLiteral" (8, 21) (at_ 1 8 1 21)))))
              (leaf "ArrowFunctionExpression" (4, 27) (at_ 1 4 1 27))))
        (put (s_other 0) (ident "foo" (0, 3) (at_ 1 0 1 3) None)
           (leaf "CallExpression" (0, 28) (at_ 1 0 1 28))))
     (leaf "ExpressionStatement" (0, 29) (at_ 1 0 1 29)))
  (leaf "Program" (0, 29) (at_ 1 0 1 29)).

Definition callback_function : Cursor :=
descendFrom (mkCursor callback_program []) [s_other 0; s_other 0; s_other 1].

Definition callback_annotation : Cursor :=
descendFrom callback_function [s_params 0; s_typeAnnotation].

(** [function f(cfg: { a: number } = d) {}] *)
Definition defaultParam_text : string :=
"function f(cfg: { a: number } = d) {}".

Definition defaultParam_program : Node :=
put (s_other 0)
  (put (s_other 0) (leaf "BlockStatement" (35, 37) (at_ 1 35 1 37))
     (put (s_params 0)
        (put (s_other 1) (ident "d" (32, 33) (at_ 1 32 1 33) None)
           (put (s_other 0)
              (ident "cfg" (11, 29) (at_ 1 11 1 29)
                 (Some (annot (14, 29) (at_ 1 14 1 29)
                          (leaf "TSTypeLiteral" (16, 29) (at_ 1 16 1 29)))))
              (leaf "AssignmentPattern" (11, 33) (at_ 1 11 1 33))))
        (put s_id (ident "f" (9, 10) (at_ 1 9 1 10) None)
           (leaf "FunctionDeclaration" (0, 37) (at_ 1 0 1 37)))))
  (leaf "Program" (0, 37) (at_ 1 0 1 37)).

Definition defaultParam_identifier : Cursor :=
descendFrom (mkCursor defaultParam_program [])
  [s_other 0; s_params 0; s_other 0].

Definition defaultParam_annotation : Cursor :=
descendFrom defaultParam_identifier [s_typeAnnotation].

(** [type T = { a: number };] *)
Definition aliasOnly_program : Node :=
put (s_other 0)
  (put s_typeAnnotation (leaf "TSTypeLiteral" (9, 22) (at_ 1 9 1 22))
     (put s_id (ident "T" (5, 6) (at_ 1 5 1 6) None)
        (leaf "TSTypeAliasDeclaration" (0, 23) (at_ 1 0 1 23))))
  (leaf "Program" (0, 23) (at_ 1 0 1 23)).

(** [function g([a]: { x: number }) {}] *)
Definition arrayPattern_program : Node :=
put (s_other 0)
  (put (s_other 0) (leaf "BlockStatement" (31, 33) (at_ 1 31 1 33))
     (put (s_params 0)
        (put (s_other 0) (ident "a" (12, 13) (at_ 1 12 1 13) None)
           (put s_typeAnnotation
              (annot (14, 29) (at_ 1 14 1 29)
                 (leaf "TSTypeLiteral" (16, 29) (at_ 1 16 1 29)))
              (leaf "ArrayPattern" (11, 29) (at_ 1 11 1 29))))
        (put s_id (ident "g" (9, 10) (at_ 1 9 1 10) None)
           (leaf "FunctionDeclaration" (0, 33) (at_ 1 0 1 33)))))
  (leaf "Program" (0, 33) (at_ 1 0 1 33)).

Definition arrayPattern_pattern : Cursor :=
descendFrom (mkCursor arrayPattern_program []) [s_other 0; s_params 0].

Definition arrayPattern_annotation : Cursor :=
descendFrom arrayPattern_pattern [s_typeAnnotation].

Definition exportClass_property : Cursor :=
descendFrom exportClass_body [s_other 0].

Definition cfg_identifier : Cursor :=
descendFrom (mkCursor cfg_program []) [s_other 0; s_other 0; s_id].

(** [[
function f(cfg: {
  a: number;
} = d) {}
]] *)
Definition defaultMultiline_text : string :=
"function f(cfg: {" ++ nl ++ "  a: number;" ++ nl ++ "} = d) {}".

Definition defaultMultiline_program : Node :=
put (s_other 0)
  (put (s_other 0) (leaf "BlockStatement" (38, 40) (at_ 3 7 3 9))
     (put (s_params 0)
        (put (s_other 1) (ident "d" (35, 36) (at_ 3 4 3 5) None)
           (put (s_other 0)
              (ident "cfg" (11, 32) (at_ 1 11 3 1)
                 (Some (annot (14, 32) (at_ 1 14 3 1)
                          (put (s_other 0)
                             (leaf "TSPropertySignature" (20, 30)
                                (at_ 2 2 2 12))
                             (leaf "TSTypeLiteral" (16, 32)
                                (at_ 1 16 3 1))))))
              (leaf "AssignmentPattern" (11, 36) (at_ 1 11 3 5))))
        (put s_id (ident "f" (9, 10) (at_ 1 9 1 10) None)
           (leaf "FunctionDeclaration" (0, 40) (at_ 1 0 3 9)))))
  (leaf "Program" (0, 40) (at_ 1 0 3 9)).

Definition defaultMultiline_function : Cursor :=
descendFrom (mkCursor defaultMultiline_program []) [s_other 0].

Definition defaultMultiline_annotation : Cursor :=
descendFrom defaultMultiline_function
  [s_params 0; s_other 0; s_typeAnnotation].

Definition defaultMultiline_literal : Cursor :=
descendFrom defaultMultiline_annotation [s_typeAnnotation].

End Examples.

(** [[
const { a }: { a: number } = obj;
]] the annotation of a destructuring declaration: none of the six cases. *)
Definition destructured_annotation : Cursor :=
mkCursor
  (Examples.annot (11, 26) (Examples.at_ 1 11 1 26)
     (Examples.leaf "TSTypeLiteral" (13, 26) (Examples.at_ 1 13 1 26)))
  [ (s_typeAnnotation,
     Examples.put s_typeAnnotation
       (Examples.annot (11, 26) (Examples.at_ 1 11 1 26)
          (Examples.leaf "TSTypeLiteral" (13, 26) (Examples.at_ 1 13 1 26)))
       (Examples.leaf "ObjectPattern" (6, 26) (Examples.at_ 1 6 1 26)));
    (s_id, Examples.leaf "VariableDeclarator" (6, 32) (Examples.at_ 1 6 1 32));
    (s_other 0,
     Examples.leaf "VariableDeclaration" (0, 33) (Examples.at_ 1 0 1 33));
    (s_other 0, Examples.leaf "Program" (0, 33) (Examples.at_ 1 0 1 33)) ].

(** The return annotation of an anonymous function that sits in a declarator
    without [id]: reading [parent.parent.id.type] throws. *)
Definition throwing_annotation : Cursor :=
mkCursor
  (Examples.annot (0, 0) (Examples.at_ 1 0 1 0)
     (Examples.leaf "TSTypeLiteral" (0, 0) (Examples.at_ 1 0 1 0)))
  [ (s_returnType,
     Examples.leaf "ArrowFunctionExpression" (0, 0) (Examples.at_ 1 0 1 0));
    (s_other 0,
     Examples.leaf "VariableDeclarator" (0, 0) (Examples.at_ 1 0 1 0)) ].

(** A child of an export wrapper that is not its declaration; the wrapper
    declares a variable. *)
Definition beside_declaration : Cursor :=
mkCursor
  (Examples.leaf "Literal" (0, 0) (Examples.at_ 1 0 1 0))
  [ (s_other 0,
     Examples.put s_declaration
       (Examples.leaf "VariableDeclaration" (7, 19) (Examples.at_ 1 7 1 19))
       (Examples.leaf "ExportNamedDeclaration" (0, 19)
          (Examples.at_ 1 0 1 19)));
    (s_other 0, Examples.leaf "Program" (0, 19) (Examples.at_ 1 0 1 19)) ].

Import Examples.

(** ** The tree and its traversal *)

Lemma walk_arr (mk : nat -> step) (ups : list (step * Node)) (n : Node) :
  forall (l : list Node) (i : nat),
    (fix go (i : nat) (l : list Node) : list Cursor :=
       match l with
       | [] => []
       | m :: l' => walk ((mk i, n) :: ups) m ++ go (S i) l'
       end) i l
    = flat_map (descend ups n)
        (map (fun '(i, m) => (mk i, m)) (indexed i l)).
Proof.
  induction l as [|m l IH]; intros i; simpl; [reflexivity|].
  rewrite IH. reflexivity.
Qed.

Lemma walk_opt (s : step) (ups : list (step * Node)) (n : Node)
    (o : option Node) :
  match o with
  | Some m => walk ((s, n) :: ups) m
  | None => []
  end = flat_map (descend ups n) (optChild s o).
Proof.
  destruct o; simpl; [rewrite app_nil_r|]; reflexivity.
Qed.

(** The traversal enters the node, then the subtree of each child. *)
Lemma walk_unfold (ups : list (step * Node)) (n : Node) :
  walk ups n = mkCursor n ups :: flat_map (descend ups n) (children n).
Proof.
  destruct n; unfold children; cbn [walk id key typeAnnotation returnType
    parameter declaration params others].
  f_equal. unfold arrChildren.
  rewrite !flat_map_app, <- !walk_opt, <- !walk_arr. reflexivity.
Qed.

(** Structural induction on nodes, with the hypothesis for every child. *)
Lemma Node_ind_nested (P : Node -> Prop)
    (H : forall ty nm r l i k ta rt pm d ps os,
        optAll P i -> optAll P k -> optAll P ta -> optAll P rt ->
        optAll P pm -> optAll P d -> Forall P ps -> Forall P os ->
        P (mkNode ty nm r l i k ta rt pm d ps os)) :
  forall n, P n.
Proof.
  exact
    (fix IH (n : Node) : P n :=
       let opt (o : option Node) : optAll P o :=
         match o with
         | Some m => IH m
         | None => I
         end in
       let all :=
         fix go (l : list Node) : Forall P l :=
           match l with
           | [] => Forall_nil P
           | m :: l' => Forall_cons m (IH m) (go l')
           end in
       match n with
       | mkNode ty nm r l i k ta rt pm d ps os =>
           H ty nm r l i k ta rt pm d ps os
             (opt i) (opt k) (opt ta) (opt rt) (opt pm) (opt d)
             (all ps) (all os)
       end).
Qed.

Lemma in_indexed {A : Type} (l : list A) :
  forall i j a, In (j, a) (indexed i l) ->
                i <= j /\ nth_error l (j - i) = Some a.
Proof.
  induction l as [|x l IH]; intros i j a Hin; simpl in Hin; [contradiction|].
  destruct Hin as [E|Hin].
  - inversion E; subst. rewrite Nat.sub_diag. split; [lia|reflexivity].
  - apply IH in Hin. destruct Hin as [Hle Hnth]. split; [lia|].
    replace (j - i) with (S (j - S i)) by lia. exact Hnth.
Qed.

Lemma indexed_in {A : Type} (l : list A) :
  forall i k a, nth_error l k = Some a -> In (i + k, a) (indexed i l).
Proof.
  induction l as [|x l IH]; intros i k a Hnth; destruct k; simpl in *;
    try discriminate.
  - inversion Hnth; subst. left. f_equal. lia.
  - right. replace (i + S k) with (S i + k) by lia. apply IH, Hnth.
Qed.

(** [children] lists exactly the children that [get] reaches. *)
Lemma in_children (n : Node) (s : step) (m : Node) :
  In (s, m) (children n) <-> get s n = Some m.
Proof.
  assert (Hopt : forall s' o, In (s, m) (optChild s' o) <->
                              s = s' /\ o = Some m).
  { intros s' [x|]; simpl; split.
    - intros [E|[]]. inversion E. auto.
    - intros [-> E]. inversion E. auto.
    - contradiction.
    - intros [_ E]. discriminate. }
  assert (Harr : forall mk l, In (s, m) (arrChildren mk l) <->
                              exists i, s = mk i /\ nth_error l i = Some m).
  { intros mk l. unfold arrChildren. rewrite in_map_iff. split.
    - intros [[i x] [E Hin]]. inversion E; subst. exists i.
      apply in_indexed in Hin. rewrite Nat.sub_0_r in Hin.
      split; [reflexivity|apply Hin].
    - intros [i [-> E]]. exists (i, m). split; [reflexivity|].
      apply (indexed_in _ 0), E. }
  unfold children. rewrite !in_app_iff, !Hopt, !Harr. split.
  - intros H.
    repeat match goal with
           | H : _ \/ _ |- _ => destruct H as [H|H]
           end;
      try (destruct H as [-> H]; exact H);
      destruct H as [i [-> H]]; exact H.
  - destruct s; simpl; intros E; eauto 12.
Qed.

Lemma Node_children_ind (P : Node -> Prop) :
  (forall n, (forall s m, get s n = Some m -> P m) -> P n) ->
  forall n, P n.
Proof.
  intros H. induction n using Node_ind_nested. apply H.
  intros s m E. destruct s; simpl in E; subst;
    try match goal with
        | H : optAll _ (Some m) |- _ => exact H
        end.
  - apply nth_error_In in E.
    match goal with
    | H : Forall _ ps |- _ => rewrite Forall_forall in H; apply H, E
    end.
  - apply nth_error_In in E.
    match goal with
    | H : Forall _ os |- _ => rewrite Forall_forall in H; apply H, E
    end.
Qed.

Lemma in_walk (n : Node) :
  forall ups c, In c (walk ups n) <-> Reaches ups n c.
Proof.
  induction n as [n IH] using Node_children_ind. intros ups c.
  rewrite walk_unfold. simpl. rewrite in_flat_map. split.
  - intros [<-|[[s m] [Hin Hc]]]; [constructor|].
    apply in_children in Hin. unfold descend in Hc; simpl in Hc.
    apply (reach_down _ _ s m); [exact Hin|]. apply (IH s m Hin), Hc.
  - intros H. inversion H as [|s m c' Hget Hr]; subst; [now left|].
    right. exists (s, m). split; [apply in_children, Hget|].
    unfold descend; simpl. apply (IH s m Hget), Hr.
Qed.

Lemma reaches_up ups n c :
  Reaches ups n c -> exists ext, up c = ext ++ ups.
Proof.
  induction 1 as [|ups n s m c Hget Hr [ext IH]].
  - exists []. reflexivity.
  - exists (ext ++ [(s, n)]). rewrite IH, <- app_assoc. reflexivity.
Qed.

(** The traversal is closed under [c.f] ... *)
Lemma reaches_child ups n c s d :
  Reaches ups n c -> child s c = Some d -> Reaches ups n d.
Proof.
  induction 1 as [ups n|ups n s' m c Hget Hr IH]; intros Hd.
  - unfold child in Hd; simpl in Hd. destruct (get s n) as [m|] eqn:E;
      [|discriminate].
    inversion Hd; subst. apply (reach_down _ _ s m _ E). constructor.
  - apply (reach_down _ _ s' m _ Hget). apply IH, Hd.
Qed.

(** ... and under [c.parent], and the two are inverse to each other. *)
Lemma reaches_parent ups n c :
  Reaches ups n c ->
  c = mkCursor n ups \/
  exists s p ups', up c = (s, p) :: ups' /\ get s p = Some (focus c)
                   /\ Reaches ups n (mkCursor p ups').
Proof.
  induction 1 as [ups n|ups n s m c Hget Hr IH]; [now left|right].
  destruct IH as [->|(s' & p & ups' & Hup & Hg & Hr')].
  - exists s, n, ups. simpl. repeat split; [exact Hget|constructor].
  - exists s', p, ups'. repeat split; try assumption.
    apply (reach_down _ _ s m _ Hget), Hr'.
Qed.

Lemma in_paramsOf c p :
  In p (paramsOf c) <->
  exists i, child (s_params i) c = Some p.
Proof.
  unfold paramsOf, child. rewrite in_map_iff. simpl. split.
  - intros [[i m] [<- Hin]]. exists i. apply in_indexed in Hin.
    rewrite Nat.sub_0_r in Hin. destruct Hin as [_ ->]. reflexivity.
  - intros [i E]. destruct (nth_error (params (focus c)) i) as [m|] eqn:Hn;
      [|discriminate].
    inversion E; subst. exists (i, m). split; [reflexivity|].
    apply (indexed_in _ 0), Hn.
Qed.

Lemma tail_inj {A : Type} (e e' base : list A) (s s' : A) :
  e ++ s :: base = e' ++ s' :: base -> e = e' /\ s = s'.
Proof.
  intros H.
  change (e ++ [s] ++ base = e' ++ [s'] ++ base) in H.
  rewrite !app_assoc in H. apply app_inv_tail in H.
  apply app_inj_tail in H. exact H.
Qed.

Lemma in_descend_path ups n sm c :
  In c (descend ups n sm) ->
  exists e, path c = e ++ fst sm :: map fst ups.
Proof.
  unfold descend. intros H. apply in_walk, reaches_up in H.
  destruct H as [ext H]. exists (map fst ext). unfold path.
  rewrite H, map_app. reflexivity.
Qed.

Lemma NoDup_descend ups n (l : list (step * Node)) :
  NoDup (map fst l) ->
  (forall sm, In sm l -> NoDup (map path (descend ups n sm))) ->
  NoDup (map path (flat_map (descend ups n) l)).
Proof.
  induction l as [|sm l IH]; intros Hnd Hsub; simpl; [constructor|].
  rewrite map_app. inversion Hnd as [|x xs Hnotin Hnd']; subst.
  apply NoDup_app; repeat split.
  - apply Hsub. now left.
  - apply IH; [exact Hnd'|]. intros sm' Hin. apply Hsub. now right.
  - intros p Hp Hp'. apply in_map_iff in Hp, Hp'.
    destruct Hp as [c [<- Hc]], Hp' as [c' [E Hc']].
    apply in_flat_map in Hc'. destruct Hc' as [sm' [Hin' Hc']].
    apply in_descend_path in Hc, Hc'.
    destruct Hc as [e Hc], Hc' as [e' Hc']. rewrite Hc, Hc' in E.
    apply tail_inj in E. destruct E as [_ E]. apply Hnotin.
    rewrite <- E. apply in_map, Hin'.
Qed.

(** No two children of a node sit under the same property. *)
Lemma Above_app k l1 l2 :
  NoDup l1 -> (forall x, In x l1 -> tag x = k) -> Above (S k) l2 ->
  Above k (l1 ++ l2).
Proof.
  intros H1 Ht [H2 Hk]. split.
  - apply NoDup_app; repeat split; try assumption.
    intros x Hx Hx'. apply Ht in Hx. apply Hk in Hx'. lia.
  - intros x Hx. apply in_app_or in Hx. destruct Hx as [Hx|Hx].
    + apply Ht in Hx. lia.
    + apply Hk in Hx. lia.
Qed.

Lemma steps_optChild s o :
  NoDup (map fst (optChild s o)) /\
  forall x, In x (map fst (optChild s o)) -> tag x = tag s.
Proof.
  destruct o; simpl; split; try constructor; try constructor; auto.
  - intros x [<-|[]]. reflexivity.
  - contradiction.
Qed.

Lemma fst_indexed {A : Type} (l : list A) :
  forall i, map fst (indexed i l) = seq i (List.length l).
Proof.
  induction l as [|a l IH]; intros i; simpl; [|rewrite IH]; reflexivity.
Qed.

Lemma steps_arrChildren (mk : nat -> step) (l : list Node) :
  map fst (arrChildren mk l) = map mk (seq 0 (List.length l)).
Proof.
  unfold arrChildren. rewrite map_map, <- fst_indexed, map_map.
  apply map_ext. intros [i m]. reflexivity.
Qed.

Lemma NoDup_map_inj {A B : Type} (f : A -> B) (l : list A) :
  (forall x y, f x = f y -> x = y) -> NoDup l -> NoDup (map f l).
Proof.
  intros Hinj. induction 1 as [|x l Hx Hl IH]; simpl; constructor; auto.
  intros Hin. apply in_map_iff in Hin. destruct Hin as [y [E Hy]].
  apply Hinj in E. subst. contradiction.
Qed.

Lemma children_NoDup (n : Node) : NoDup (map fst (children n)).
Proof.
  unfold children. rewrite !map_app.
  enough (H : Above 0
    (map fst (optChild s_id (id n)) ++ map fst (optChild s_key (key n))
     ++ map fst (optChild s_typeAnnotation (typeAnnotation n))
     ++ map fst (optChild s_returnType (returnType n))
     ++ map fst (optChild s_parameter (parameter n))
     ++ map fst (optChild s_declaration (declaration n))
     ++ map fst (arrChildren s_params (params n))
     ++ map fst (arrChildren s_other (others n)))) by apply H.
  repeat (apply Above_app; [apply steps_optChild|apply steps_optChild|]).
  rewrite !steps_arrChildren. apply Above_app.
  - apply NoDup_map_inj; [now intros x y [= ->]|apply seq_NoDup].
  - intros x Hx. apply in_map_iff in Hx. destruct Hx as [i [<- _]].
    reflexivity.
  - split.
    + apply NoDup_map_inj; [now intros x y [= ->]|apply seq_NoDup].
    + intros x Hx. apply in_map_iff in Hx. destruct Hx as [i [<- _]].
      simpl. lia.
Qed.

(** Distinct nodes of the traversal have distinct positions. *)
Lemma walk_NoDup (n : Node) :
  forall ups, NoDup (map path (walk ups n)).
Proof.
  induction n as [n IH] using Node_children_ind. intros ups.
  rewrite walk_unfold. simpl. constructor.
  - intros Hin. apply in_map_iff in Hin. destruct Hin as [c [E Hc]].
    apply in_flat_map in Hc. destruct Hc as [sm [_ Hc]].
    apply in_descend_path in Hc. destruct Hc as [e Hc].
    rewrite Hc in E. unfold path in E. simpl in E.
    apply (f_equal (@List.length step)) in E. rewrite length_app in E.
    simpl in E. lia.
  - apply NoDup_descend; [apply children_NoDup|].
    intros [s m] Hin. apply in_children in Hin. unfold descend. simpl.
    apply (IH s m Hin).
Qed.

Lemma NoDup_map_eq {A B : Type} (f : A -> B) (l : list A) (x y : A) :
  NoDup (map f l) -> In x l -> In y l -> f x = f y -> x = y.
Proof.
  induction l as [|a l IH]; simpl; intros Hnd Hx Hy E; [contradiction|].
  inversion Hnd as [|b bs Hnotin Hnd']; subst.
  destruct Hx as [->|Hx], Hy as [->|Hy]; auto.
  - exfalso. apply Hnotin. rewrite E. apply in_map, Hy.
  - exfalso. apply Hnotin. rewrite <- E. apply in_map, Hx.
Qed.

(** A node of the tree is determined by its position. *)
Lemma same_path_same_node ups n c d :
  Reaches ups n c -> Reaches ups n d -> path c = path d -> c = d.
Proof.
  intros Hc Hd. apply in_walk in Hc, Hd.
  apply (NoDup_map_eq path (walk ups n)); auto using walk_NoDup.
Qed.

(** ** Findings and annotation sites *)

Lemma check_literalOf sourceCode a :
  checkMultilineLiteralInAnnotation sourceCode (Some a) =
  match literalOf a with
  | Some l => [mkFinding l "inlineType" (fixOf sourceCode a l)]
  | None => []
  end.
Proof.
  unfold checkMultilineLiteralInAnnotation, literalOf.
  destruct (type (focus a) =? "TSTypeAnnotation"); simpl; [|reflexivity].
  destruct (child s_typeAnnotation a) as [l|]; [|reflexivity].
  destruct (type (focus l) =? "TSTypeLiteral"); reflexivity.
Qed.

Lemma flat_map_bind {A B C : Type} (f : A -> list B) (g : B -> list C)
    (l : list A) :
  flat_map g (flat_map f l) = flat_map (fun x => flat_map g (f x)) l.
Proof.
  induction l as [|x l IH]; simpl; [reflexivity|].
  rewrite flat_map_app, IH. reflexivity.
Qed.

Lemma visit_sites sourceCode node :
  visit sourceCode node =
  flat_map (fun a => checkMultilineLiteralInAnnotation sourceCode (Some a))
           (sites node).
Proof.
  unfold visit, sites.
  destruct (type (focus node) =? "VariableDeclarator").
  { unfold VariableDeclarator. destruct (child s_id node) as [i|];
      [|reflexivity].
    destruct (child s_typeAnnotation i); simpl;
      [rewrite app_nil_r|]; reflexivity. }
  destruct (type (focus node) =? "PropertyDefinition").
  { unfold PropertyDefinition. destruct (child s_typeAnnotation node); simpl;
      [rewrite app_nil_r|]; reflexivity. }
  destruct (isFunction (type (focus node))); [|reflexivity].
  unfold function. rewrite flat_map_app. f_equal.
  { destruct (child s_returnType node); simpl;
      [rewrite app_nil_r|]; reflexivity. }
  rewrite flat_map_bind. apply flat_map_ext.
  intros p. unfold visitParam, paramSites.
  destruct (child s_typeAnnotation p); simpl;
    [rewrite app_nil_r; reflexivity|].
  destruct (type (focus p) =? "TSParameterProperty"); [|reflexivity].
  destruct (child s_parameter p) as [pp|]; [|reflexivity].
  destruct (child s_typeAnnotation pp); simpl;
    [rewrite app_nil_r|]; reflexivity.
Qed.

Lemma child_up s c d :
  child s c = Some d ->
  up d = (s, focus c) :: up c /\ get s (focus c) = Some (focus d).
Proof.
  unfold child. destruct (get s (focus c)) as [m|]; [|discriminate].
  intros [= <-]. split; reflexivity.
Qed.

Lemma child_path s c d : child s c = Some d -> path d = s :: path c.
Proof.
  intros H. apply child_up in H. destruct H as [H _]. unfold path.
  rewrite H. reflexivity.
Qed.

Lemma in_optList {A : Type} (o : option A) (a : A) :
  In a (optList o) <-> o = Some a.
Proof.
  destruct o; simpl; split; try intros [->|[]]; try intros [= ->]; auto;
    try contradiction; discriminate.
Qed.

Lemma paramSites_path p a :
  In a (paramSites p) ->
  path a = s_typeAnnotation :: path p \/
  path a = s_typeAnnotation :: s_parameter :: path p.
Proof.
  unfold paramSites. destruct (child s_typeAnnotation p) as [a'|] eqn:E.
  - intros [<-|[]]. left. apply child_path, E.
  - destruct (type (focus p) =? "TSParameterProperty"); [|contradiction].
    destruct (child s_parameter p) as [pp|] eqn:Epp; [|contradiction].
    intros H. apply in_optList in H. right.
    rewrite (child_path _ _ _ H), (child_path _ _ _ Epp). reflexivity.
Qed.

Lemma sites_slot q a : In a (sites q) -> Slot q a.
Proof.
  unfold sites.
  destruct (type (focus q) =? "VariableDeclarator") eqn:Ev.
  { apply String.eqb_eq in Ev. destruct (child s_id q) as [i|] eqn:Ei;
      [|contradiction].
    intros H. apply in_optList in H. apply slot_binding; [exact Ev|].
    rewrite (child_path _ _ _ H), (child_path _ _ _ Ei). reflexivity. }
  destruct (type (focus q) =? "PropertyDefinition") eqn:Ep.
  { apply String.eqb_eq in Ep. intros H. apply in_optList in H.
    apply slot_property; [exact Ep|]. apply child_path, H. }
  destruct (isFunction (type (focus q))) eqn:Ef; [|contradiction].
  intros H. apply in_app_or in H. destruct H as [H|H].
  - apply in_optList in H. apply slot_return; [exact Ef|].
    apply child_path, H.
  - apply in_flat_map in H. destruct H as [p [Hp Ha]].
    apply in_paramsOf in Hp. destruct Hp as [i Hp].
    apply child_path in Hp. apply paramSites_path in Ha.
    destruct Ha as [Ha|Ha]; rewrite Hp in Ha.
    + apply (slot_param _ _ i); assumption.
    + apply (slot_paramProperty _ _ i); assumption.
Qed.

Lemma sites_selected q a : In a (sites q) -> selected (type (focus q)) = true.
Proof.
  unfold sites, selected.
  destruct (type (focus q) =? "VariableDeclarator"); [reflexivity|].
  destruct (type (focus q) =? "PropertyDefinition"); [reflexivity|].
  destruct (isFunction (type (focus q))); [reflexivity|contradiction].
Qed.

Lemma sites_reaches ups n q a :
  Reaches ups n q -> In a (sites q) -> Reaches ups n a.
Proof.
  intros Hq. unfold sites.
  destruct (type (focus q) =? "VariableDeclarator").
  { destruct (child s_id q) as [i|] eqn:Ei; [|contradiction].
    intros H. apply in_optList in H. eauto using reaches_child. }
  destruct (type (focus q) =? "PropertyDefinition").
  { intros H. apply in_optList in H. eauto using reaches_child. }
  destruct (isFunction (type (focus q))); [|contradiction].
  intros H. apply in_app_or in H. destruct H as [H|H].
  - apply in_optList in H. eauto using reaches_child.
  - apply in_flat_map in H. destruct H as [p [Hp Ha]].
    apply in_paramsOf in Hp. destruct Hp as [i Hp].
    assert (Rp : Reaches ups n p) by eauto using reaches_child.
    unfold paramSites in Ha.
    destruct (child s_typeAnnotation p) as [a'|] eqn:E.
    + destruct Ha as [<-|[]]. eauto using reaches_child.
    + destruct (type (focus p) =? "TSParameterProperty"); [|contradiction].
      destruct (child s_parameter p) as [pp|] eqn:Epp; [|contradiction].
      apply in_optList in Ha. eauto using reaches_child.
Qed.

(** Every finding of a run comes from one annotation site of one node of the
    tree. *)
Lemma finding_origin sourceCode program f :
  In f (runRule sourceCode program) <->
  exists q a, Reaches [] program q /\ In a (sites q) /\
              literalOf a = Some (f_node f) /\
              f = mkFinding (f_node f) "inlineType"
                    (fixOf sourceCode a (f_node f)).
Proof.
  unfold runRule. rewrite in_flat_map. split.
  - intros [q [Hq Hf]]. rewrite visit_sites in Hf. apply in_flat_map in Hf.
    destruct Hf as [a [Ha Hf]]. rewrite check_literalOf in Hf.
    destruct (literalOf a) as [l|] eqn:El; [|contradiction].
    destruct Hf as [<-|[]]. exists q, a. apply in_walk in Hq. auto.
  - intros (q & a & Hq & Ha & El & Ef). exists q. split; [apply in_walk, Hq|].
    rewrite visit_sites. apply in_flat_map. exists a. split; [exact Ha|].
    rewrite check_literalOf, El. left. symmetry. exact Ef.
Qed.

(** ** Every annotation is inspected at most once *)

Lemma NoDup_flat_map_key {X Y K H : Type} (f : X -> list Y) (g : Y -> K)
    (h : X -> H) (W : list X) :
  NoDup (map h W) ->
  (forall x, In x W -> NoDup (map g (f x))) ->
  (forall x x' y y', In x W -> In x' W -> In y (f x) -> In y' (f x') ->
                     g y = g y' -> h x = h x') ->
  NoDup (map g (flat_map f W)).
Proof.
  induction W as [|x W IH]; intros Hnd Hin Hcross; simpl; [constructor|].
  inversion Hnd as [|hx hs Hnotin Hnd']; subst. rewrite map_app.
  apply NoDup_app; repeat split.
  - apply Hin. now left.
  - apply IH; [exact Hnd'| |].
    + intros x' Hx'. apply Hin. now right.
    + intros x1 x2 y1 y2 H1 H2. apply Hcross; now right.
  - intros k Hk Hk'. apply in_map_iff in Hk, Hk'.
    destruct Hk as [y [<- Hy]], Hk' as [y' [E Hy']].
    apply in_flat_map in Hy'. destruct Hy' as [x' [Hx' Hy']].
    apply Hnotin. rewrite (Hcross x x' y y'); auto.
    + apply in_map, Hx'.
    + now left.
    + now right.
Qed.

Lemma paramsOf_paths q :
  map path (paramsOf q) =
  map (fun i => s_params i :: path q)
      (seq 0 (List.length (params (focus q)))).
Proof.
  unfold paramsOf. rewrite <- fst_indexed, !map_map. apply map_ext.
  intros [i m]. reflexivity.
Qed.

Lemma paramSites_NoDup p : NoDup (map path (paramSites p)).
Proof.
  unfold paramSites. destruct (child s_typeAnnotation p).
  { simpl. repeat constructor. intros []. }
  destruct (type (focus p) =? "TSParameterProperty"); [|constructor].
  destruct (child s_parameter p) as [pp|]; [|constructor].
  destruct (child s_typeAnnotation pp); simpl; repeat constructor.
  intros [].
Qed.

Lemma optList_NoDup {A K : Type} (g : A -> K) (o : option A) :
  NoDup (map g (optList o)).
Proof. destruct o; simpl; repeat constructor. intros []. Qed.

Lemma sites_NoDup q : NoDup (map path (sites q)).
Proof.
  unfold sites.
  destruct (type (focus q) =? "VariableDeclarator").
  { destruct (child s_id q); [apply optList_NoDup|constructor]. }
  destruct (type (focus q) =? "PropertyDefinition"); [apply optList_NoDup|].
  destruct (isFunction (type (focus q))); [|constructor].
  rewrite map_app. apply NoDup_app; repeat split.
  - apply optList_NoDup.
  - apply (NoDup_flat_map_key paramSites path path).
    + rewrite paramsOf_paths.
      apply NoDup_map_inj; [now intros x y [= ->]|apply seq_NoDup].
    + intros p _. apply paramSites_NoDup.
    + intros p p' a a' Hp Hp' Ha Ha' E.
      apply in_paramsOf in Hp, Hp'. destruct Hp as [i Hp], Hp' as [j Hp'].
      apply child_path in Hp, Hp'. apply paramSites_path in Ha, Ha'.
      rewrite Hp in *. rewrite Hp' in *.
      destruct Ha as [Ha|Ha], Ha' as [Ha'|Ha']; rewrite Ha, Ha' in E;
        congruence.
  - intros k Hk Hk'. apply in_map_iff in Hk, Hk'.
    destruct Hk as [a [<- Ha]], Hk' as [a' [E Ha']].
    apply in_optList, child_path in Ha.
    apply in_flat_map in Ha'. destruct Ha' as [p [_ Ha']].
    apply paramSites_path in Ha'. rewrite Ha in E.
    destruct Ha' as [Ha'|Ha']; rewrite Ha' in E; discriminate.
Qed.

Lemma wellPlaced_property program q :
  propertiesInClassBodies program = true ->
  Reaches [] program q -> type (focus q) = "PropertyDefinition" ->
  exists j rest, path q = s_other j :: rest.
Proof.
  unfold propertiesInClassBodies. rewrite forallb_forall.
  intros H Hq Ht. apply in_walk in Hq. apply H in Hq.
  rewrite Ht in Hq. simpl in Hq. unfold propertyInClassBody, path in *.
  destruct (up q) as [|[s p] u]; [discriminate|].
  destruct s; try discriminate. simpl. eauto.
Qed.

(** Two nodes whose handlers inspect the same annotation are the same
    node. *)
Lemma sites_cross program q q' a a' :
  propertiesInClassBodies program = true ->
  Reaches [] program q -> Reaches [] program q' ->
  In a (sites q) -> In a' (sites q') -> path a = path a' ->
  path q = path q'.
Proof.
  intros Hwf Hq Hq' Ha Ha' E.
  apply sites_slot in Ha, Ha'.
  assert (Hp : forall c, Reaches [] program c ->
                         type (focus c) = "PropertyDefinition" ->
                         exists j rest, path c = s_other j :: rest)
    by (intros; eapply wellPlaced_property; eauto).
  destruct Ha as [Ht Ha|Ht Ha|Ht Ha|i Ht Ha|i Ht Ha];
    destruct Ha' as [Ht' Ha'|Ht' Ha'|Ht' Ha'|i' Ht' Ha'|i' Ht' Ha'];
    rewrite Ha, Ha' in E; try congruence;
    try (destruct (Hp q Hq Ht) as (j & rest & Hj); rewrite Hj in E;
         discriminate);
    try (destruct (Hp q' Hq' Ht') as (j & rest & Hj); rewrite Hj in E;
         discriminate).
Qed.

Lemma allSites_NoDup program :
  propertiesInClassBodies program = true ->
  NoDup (map path (flat_map sites (walk [] program))).
Proof.
  intros Hwf. apply (NoDup_flat_map_key sites path path).
  - apply walk_NoDup.
  - intros q _. apply sites_NoDup.
  - intros q q' a a' Hq Hq'. apply in_walk in Hq, Hq'.
    apply (sites_cross program); assumption.
Qed.

Lemma literalOf_spec a l :
  literalOf a = Some l <->
  type (focus a) = "TSTypeAnnotation" /\ child s_typeAnnotation a = Some l
  /\ type (focus l) = "TSTypeLiteral".
Proof.
  unfold literalOf. split.
  - destruct (type (focus a) =? "TSTypeAnnotation") eqn:Ea; [|discriminate].
    destruct (child s_typeAnnotation a) as [l'|]; [|discriminate].
    destruct (type (focus l') =? "TSTypeLiteral") eqn:El; [|discriminate].
    intros [= ->]. apply String.eqb_eq in Ea, El. auto.
  - intros (Ea & -> & El). apply String.eqb_eq in Ea, El.
    rewrite Ea, El. reflexivity.
Qed.

Lemma literalOf_path a l :
  literalOf a = Some l -> path l = s_typeAnnotation :: path a.
Proof. intros H. apply literalOf_spec in H. apply child_path, H. Qed.

Lemma path_eqb_eq p q : path_eqb p q = true <-> p = q.
Proof.
  unfold path_eqb. destruct (list_eq_dec step_eq_dec p q); split; auto;
    discriminate.
Qed.

Lemma filter_other sourceCode l (A : list Cursor) :
  (forall a, In a A -> s_typeAnnotation :: path a <> path l) ->
  filter (keyedAt l)
    (flat_map
       (fun a => checkMultilineLiteralInAnnotation sourceCode (Some a)) A)
  = [].
Proof.
  induction A as [|x A IH]; intros H; cbn [flat_map]; [reflexivity|].
  rewrite filter_app, IH by (intros a Ha; apply H; now right).
  rewrite app_nil_r, check_literalOf.
  destruct (literalOf x) as [lx|] eqn:E; [|reflexivity].
  simpl. unfold keyedAt. simpl.
  destruct (path_eqb (path lx) (path l)) eqn:Ep; [|reflexivity].
  apply path_eqb_eq in Ep. apply literalOf_path in E.
  exfalso. apply (H x); [now left|]. congruence.
Qed.

Lemma filter_unique sourceCode a l (A : list Cursor) :
  NoDup (map path A) -> In a A -> literalOf a = Some l ->
  filter (keyedAt l)
    (flat_map
       (fun a => checkMultilineLiteralInAnnotation sourceCode (Some a)) A)
  = [mkFinding l "inlineType" (fixOf sourceCode a l)].
Proof.
  intros Hnd Hin El. pose proof (literalOf_path _ _ El) as Hl.
  induction A as [|x A IH]; [contradiction|].
  inversion Hnd as [|k ks Hnotin Hnd']; subst. cbn [flat_map].
  rewrite filter_app.
  destruct Hin as [->|Hin].
  - rewrite filter_other.
    + rewrite check_literalOf, El. simpl. unfold keyedAt. simpl.
      replace (path_eqb (path l) (path l)) with true
        by (symmetry; now apply path_eqb_eq).
      reflexivity.
    + intros a' Ha' E. apply Hnotin. rewrite Hl in E.
      injection E as E. rewrite <- E. apply in_map, Ha'.
  - rewrite (IH Hnd' Hin). rewrite check_literalOf.
    destruct (literalOf x) as [lx|] eqn:Ex; [|reflexivity].
    simpl. unfold keyedAt. simpl.
    destruct (path_eqb (path lx) (path l)) eqn:Ep; [|reflexivity].
    apply path_eqb_eq in Ep. apply literalOf_path in Ex.
    exfalso. apply Hnotin. rewrite Hl, Ex in Ep. injection Ep as Ep.
    rewrite Ep. apply in_map, Hin.
Qed.

Lemma runRule_sites sourceCode program :
  runRule sourceCode program =
  flat_map (fun a => checkMultilineLiteralInAnnotation sourceCode (Some a))
           (flat_map sites (walk [] program)).
Proof.
  unfold runRule. rewrite flat_map_bind. apply flat_map_ext.
  intros q. apply visit_sites.
Qed.

(** ** Findings and subtrees *)

(** A node of the tree whose position extends that of [X] lies in the
    subtree of [X]. *)
Lemma reaches_below ups n X :
  Reaches ups n X ->
  forall q e, Reaches ups n q -> path q = e ++ path X ->
              Reaches (up X) (focus X) q.
Proof.
  induction 1 as [ups n|ups n s m X Hget HX IH]; intros q e Hq E;
    [exact Hq|].
  destruct (reaches_up _ _ _ HX) as [ext Hext].
  inversion Hq as [|s' m' q' Hget' Hq']; subst.
  - exfalso. unfold path in E. rewrite Hext in E. simpl in E.
    apply (f_equal (@List.length step)) in E.
    rewrite !length_app, !length_map, length_app in E. simpl in E. lia.
  - destruct (reaches_up _ _ _ Hq') as [ext' Hext'].
    assert (Es : s' = s).
    { unfold path in E. rewrite Hext, Hext', !map_app in E. simpl in E.
      rewrite app_assoc in E. apply tail_inj in E. apply E. }
    subst s'. rewrite Hget in Hget'. injection Hget' as <-.
    apply (IH q e Hq' E).
Qed.

Lemma suffix_cmp {A : Type} (pre : list A) :
  forall e P Q, pre ++ P = e ++ Q ->
                (exists w, P = w ++ Q) \/
                (exists w, w <> [] /\ Q = w ++ P /\ pre = e ++ w).
Proof.
  induction pre as [|x pre IH]; intros e P Q E; simpl in E.
  - left. exists e. exact E.
  - destruct e as [|y e]; simpl in E.
    + right. exists (x :: pre). repeat split; [discriminate|auto].
    + injection E as -> E. apply IH in E.
      destruct E as [E|(w & Hw & HQ & ->)]; [now left|].
      right. exists w. auto.
Qed.

Lemma slot_steps q a l :
  Slot q a -> literalOf a = Some l ->
  exists pre, path l = pre ++ path q /\ slotSteps pre.
Proof.
  intros Hs Hl. apply literalOf_path in Hl. rewrite Hl. unfold slotSteps.
  destruct Hs as [_ ->|_ ->|_ ->|i _ ->|i _ ->].
  - exists [s_typeAnnotation; s_typeAnnotation; s_id]. auto.
  - exists [s_typeAnnotation; s_typeAnnotation]. auto.
  - exists [s_typeAnnotation; s_returnType]. auto.
  - exists [s_typeAnnotation; s_typeAnnotation; s_params i]. eauto 7.
  - exists [s_typeAnnotation; s_typeAnnotation; s_parameter; s_params i].
    eauto 7.
Qed.

Lemma finding_reaches sourceCode program f :
  In f (runRule sourceCode program) -> Reaches [] program (f_node f).
Proof.
  intros H. apply finding_origin in H.
  destruct H as (q & a & Hq & Ha & Hl & _). apply literalOf_spec in Hl.
  apply (reaches_child _ _ a s_typeAnnotation); [|apply Hl].
  apply (sites_reaches _ _ q); assumption.
Qed.

(** A finding keyed inside a subtree that holds no node with a handler is
    reported by a handler of a proper ancestor [q] of that subtree. *)
Lemma flagged_from_above sourceCode program X f e :
  Reaches [] program X -> unselected X = true ->
  In f (runRule sourceCode program) -> path (f_node f) = e ++ path X ->
  exists q a w pre,
    Reaches [] program a /\ literalOf a = Some (f_node f) /\
    w <> [] /\ path X = w ++ path q /\ pre = e ++ w /\ slotSteps pre.
Proof.
  intros HX Hun Hf E. apply finding_origin in Hf.
  destruct Hf as (q & a & Hq & Ha & Hl & _).
  destruct (slot_steps q a _ (sites_slot _ _ Ha) Hl) as (pre & Hpre & Hs).
  rewrite Hpre in E. apply suffix_cmp in E.
  destruct E as [[w E]|(w & Hw & HwX & E)].
  - exfalso. apply (reaches_below _ _ _ HX _ _ Hq) in E.
    apply in_walk in E. unfold unselected in Hun.
    rewrite forallb_forall in Hun. apply Hun in E.
    rewrite (sites_selected _ _ Ha) in E. discriminate.
  - exists q, a, w, pre. repeat split; auto.
    apply (sites_reaches _ _ q); assumption.
Qed.

(** No finding is keyed at or inside a subtree that hangs under a property
    the handlers never read, unless a handler is registered for a node of
    the subtree. *)
Lemma no_finding_under_other sourceCode program X j rest f e :
  Reaches [] program X -> path X = s_other j :: rest ->
  unselected X = true ->
  In f (runRule sourceCode program) -> path (f_node f) <> e ++ path X.
Proof.
  intros HX Hp Hun Hf E.
  destruct (flagged_from_above _ _ _ _ _ HX Hun Hf E)
    as (q & a & w & pre & _ & _ & Hw & HwX & -> & Hs).
  rewrite Hp in HwX. destruct w as [|s w]; [now apply Hw|].
  injection HwX as <- _. unfold slotSteps in Hs.
  assert (Hin : In (s_other j) (e ++ s_other j :: w))
    by (apply in_or_app; right; now left).
  destruct Hs as [Hs|[Hs|[Hs|[[i Hs]|[i Hs]]]]]; rewrite Hs in Hin;
    simpl in Hin; intuition discriminate.
Qed.

Lemma sitsUnder_path s c :
  sitsUnder s c = true <-> exists rest, path c = s :: rest.
Proof.
  unfold sitsUnder, path. destruct (up c) as [|[s' p] u]; simpl.
  - split; [discriminate|intros [r H]; discriminate].
  - destruct (step_eq_dec s s') as [->|Hne]; split; eauto.
    + discriminate.
    + intros [r [= ->]]. now elim Hne.
Qed.

Lemma cursor_eta (c : Cursor) : mkCursor (focus c) (up c) = c.
Proof. destruct c; reflexivity. Qed.

Lemma literalOf_parent a l :
  literalOf a = Some l -> parent l = Some a.
Proof.
  intros H. apply literalOf_spec in H. destruct H as (_ & H & _).
  apply child_up in H. destruct H as [H _]. unfold parent. rewrite H.
  now rewrite cursor_eta.
Qed.

(** The node a finding is keyed at is a literal directly under an
    annotation. *)
Lemma finding_parent sourceCode program f :
  In f (runRule sourceCode program) ->
  exists a, parent (f_node f) = Some a /\
            type (focus a) = "TSTypeAnnotation".
Proof.
  intros H. apply finding_origin in H. destruct H as (q & a & _ & _ & Hl & _).
  exists a. split; [apply literalOf_parent, Hl|].
  apply literalOf_spec in Hl. apply Hl.
Qed.

(** ** The loop of the resolver *)

Lemma last_default {A : Type} (l : list A) (x d d' : A) :
  last (x :: l) d = last (x :: l) d'.
Proof.
  revert x. induction l as [|y l IH]; intros x; [reflexivity|].
  change (last (y :: l) d = last (y :: l) d'). apply IH.
Qed.

Lemma loop_climbs startNode (chain : list (step * Node)) :
  forall cur rest,
    climbs cur chain = true ->
    ancestorLoop startNode cur (chain ++ rest)
    = ancestorLoop startNode (topOf cur chain) rest.
Proof.
  induction chain as [|[s par] chain IH]; intros cur rest H;
    [reflexivity|].
  cbn [climbs] in H. rewrite <- app_comm_cons. cbn [ancestorLoop].
  apply andb_prop in H. destruct H as [Hi Hc]. unfold inert in Hi.
  apply andb_prop in Hi. destruct Hi as [Hi H3].
  apply andb_prop in Hi. destruct Hi as [H1 H2].
  apply negb_true_iff in H1, H2, H3. rewrite H1, H2, H3.
  rewrite (IH par rest Hc). unfold topOf. cbn [map snd last].
  destruct (map snd chain); [reflexivity|]. f_equal. apply last_default.
Qed.

(** What the loop returns is the start node, the current node or one of its
    ancestors. *)
Lemma loop_result startNode :
  forall ups cur r,
    ancestorLoop startNode cur ups = Some r ->
    (r = startNode /\ has targetAncestorTypes (type (focus startNode)) = true)
    \/ (r = mkCursor cur ups
        /\ (has targetAncestorTypes (type cur) = true
            \/ isExport (type cur) = true))
    \/ In r (ancestorsOf ups).
Proof.
  induction ups as [|[s par] ups IH]; intros cur r H; cbn [ancestorLoop] in H;
    [discriminate|].
  destruct (has targetAncestorTypes (type cur)
            && has validParentContextTypes (type par)) eqn:E1.
  { apply andb_prop in E1. destruct E1 as [E1 _].
    destruct (isExport (type par)); injection H as <-.
    - right. right. simpl. now left.
    - right. left. auto. }
  destruct (isExport (type cur) && declaresTarget cur) eqn:E2.
  { apply andb_prop in E2. destruct E2 as [E2 _]. injection H as <-.
    right. left. auto. }
  destruct (type par =? "Program").
  { destruct (has targetAncestorTypes (type (focus startNode))) eqn:E3;
      [|discriminate].
    injection H as <-. left. auto. }
  apply IH in H. destruct H as [H|[[-> _]|H]]; [now left| |];
    right; right; simpl; auto.
Qed.

Lemma isExport_cases t :
  isExport t = true ->
  t = "ExportNamedDeclaration" \/ t = "ExportDefaultDeclaration".
Proof.
  unfold isExport. intros H. apply orb_prop in H.
  destruct H as [H|H]; apply String.eqb_eq in H; auto.
Qed.

Lemma isExport_valid t :
  isExport t = true -> has validParentContextTypes t = true.
Proof. intros H. apply isExport_cases in H. destruct H; subst; reflexivity. Qed.

Lemma isExport_not_target t :
  isExport t = true -> has targetAncestorTypes t = false.
Proof. intros H. apply isExport_cases in H. destruct H; subst; reflexivity. Qed.

Lemma classMemberChain_climbs a chain sb body :
  type (focus a) = "TSTypeAnnotation" -> classMemberChain chain = true ->
  type body = "ClassBody" ->
  climbs (focus a) (chain ++ [(sb, body)]) = true
  /\ topOf (focus a) (chain ++ [(sb, body)]) = body.
Proof.
  intros Ha Hc Hb. split.
  2:{ unfold topOf. rewrite map_app. simpl. apply last_last. }
  assert (P : forall t, isParameterKind t = true ->
                        has targetAncestorTypes t = false
                        /\ isExport t = false /\ (t =? "Program") = false).
  { intros t H. unfold isParameterKind, has in H. simpl in H.
    repeat (apply orb_prop in H; destruct H as [H|H]);
      try discriminate; apply String.eqb_eq in H; subst; auto. }
  destruct chain as [|[s1 n1] [|[s2 n2] [|[s3 n3] [|[s4 n4] [|]]]]];
    simpl in Hc; try discriminate; destruct s1; try discriminate;
    try (destruct s2; try discriminate);
    try (destruct s3; try discriminate);
    repeat match goal with
           | H : _ && _ = true |- _ => apply andb_prop in H; destruct H
           end;
    repeat match goal with
           | H : (_ =? _) = true |- _ => apply String.eqb_eq in H
           | H : isParameterKind _ = true |- _ =>
               apply P in H; destruct H as (? & ? & ?)
           end;
    cbn [app climbs]; unfold inert;
    repeat match goal with
           | H : type _ = _ |- _ => rewrite H
           | H : has _ _ = _ |- _ => rewrite H
           | H : isExport _ = _ |- _ => rewrite H
           | H : (_ =? _) = false |- _ => rewrite H
           end;
    reflexivity.
Qed.

Ltac case_bool :=
  match goal with
  | |- context [if ?b then _ else _] => destruct b eqn:?
  | |- context [match ?o with Some _ => _ | None => _ end] => destruct o eqn:?
  end; simpl in *; try discriminate; try reflexivity.

(** ** Positions play no part *)

(** The rule reads [loc] in the text of a console warning only, which is not
    part of what it reports. *)

Section Relocation.

Variable g : SourceLocation -> SourceLocation.




































End Relocation.


(** ** The expectations of the repository's tests *)

(** [let cfg: { host: string; port: number };] *)
Lemma test_cfg :
  map (fun f => applyFix (f_fix f) cfg_text) (runRule cfg_text cfg_program)
  = [ ("type CfgType = { host: string; port: number };" ++ nl ++ nl
       ++ "let cfg: CfgType;")%string ].
Proof. reflexivity. Qed.

(** [class D { constructor(p: { x: number }) {} }] *)
Lemma test_constructor_parameter :
  map (fun f => applyFix (f_fix f) ctor_text) (runRule ctor_text ctor_program)
  = [ ("type PType = { x: number };" ++ nl ++ nl
       ++ "class D { constructor(p: PType) {} }")%string ].
Proof. reflexivity. Qed.

(** The names the tests expect for [fetchData], [PureSendButton] and
    [export const getConfig = (): {...} => ...]. *)
Lemma test_names :
  deriveTypeName fetchData_annotation = "FetchDataReturnType"
  /\ deriveTypeName sendButton_annotation = "PureSendButtonProps"
  /\ toPascalCase (Some "getConfig") = "GetConfig"
  /\ toPascalCase (Some "my_config") = "MyConfig".
Proof. repeat split; reflexivity. Qed.

(** ** The claims *)



(** C2, at the input where the code fails it: in
    [[
function f(cfg: {
  a: number;
} = d) {}
    ]]
    the parameter of the function is annotated with an object-type literal
    that spans three lines, and the run reports nothing.  The parameter has a
    default value, so it is an [AssignmentPattern] with the annotation on its
    left side, and the handler of functions reads the [typeAnnotation] of
    the parameter itself and of the parameter of a parameter property
    only. *)
Theorem default_valued_parameter_not_reported :
  In defaultMultiline_function (walk [] defaultMultiline_program)
  /\ isFunction (type (focus defaultMultiline_function)) = true
  /\ map (fun p => type (focus p)) (paramsOf defaultMultiline_function)
     = ["AssignmentPattern"]
  /\ path defaultMultiline_annotation
     = s_typeAnnotation :: s_other 0 :: s_params 0
       :: path defaultMultiline_function
  /\ literalOf defaultMultiline_annotation = Some defaultMultiline_literal
  /\ spansMultipleLines (focus defaultMultiline_literal) = true
  /\ visit defaultMultiline_text defaultMultiline_function = []
  /\ runRule defaultMultiline_text defaultMultiline_program = [].
Proof.
  split; [vm_compute; auto|]. repeat split; reflexivity.
Qed.

(** C3: the object-type literal on the right of a type alias, and the body
    of an interface declaration, are the node of no finding, on however many
    lines they stand; and no finding is keyed anywhere inside them either,
    as long as they hold no node a handler is registered for. *)
Theorem definition_body_not_flagged (sourceCode : string) (program : Node)
    (declaration body : Cursor) (f : Finding) :
  In body (walk [] program) ->
  parent body = Some declaration ->
  (type (focus declaration) = "TSTypeAliasDeclaration"
   /\ sitsUnder s_typeAnnotation body = true
   /\ type (focus body) = "TSTypeLiteral")
  \/ (type (focus declaration) = "TSInterfaceDeclaration"
      /\ exists j, sitsUnder (s_other j) body = true) ->
  In f (runRule sourceCode program) ->
  path (f_node f) <> path body
  /\ (unselected body = true -> forall e, path (f_node f) <> e ++ path body).
Proof.
  intros Hb Hpar Hkind Hf. apply in_walk in Hb.
  assert (Hself : path (f_node f) <> path body).
  { intros E.
    apply (same_path_same_node _ _ _ _ (finding_reaches _ _ _ Hf) Hb) in E.
    destruct (finding_parent _ _ _ Hf) as (a & Ha & Hta).
    rewrite E, Hpar in Ha. injection Ha as ->.
    destruct Hkind as [[Hd _]|[Hd _]]; rewrite Hd in Hta; discriminate. }
  split; [exact Hself|]. intros Hun e E.
  destruct (flagged_from_above _ _ _ _ _ Hb Hun Hf E)
    as (q & a & w & pre & Ra & Hl & Hw & HwX & -> & Hs).
  assert (Hhead : exists s rest, path body = s :: rest).
  { unfold parent in Hpar. unfold path.
    destruct (up body) as [|[s p] u]; [discriminate|].
    exists s, (map fst u). reflexivity. }
  destruct Hhead as (s & rest & Hp).
  assert (Huniq : forall s', sitsUnder s' body = true -> s' = s).
  { intros s' H. apply sitsUnder_path in H. destruct H as [r H].
    congruence. }
  destruct w as [|s0 w]; [now apply Hw|].
  rewrite Hp in HwX. injection HwX as <- _.
  destruct Hkind as [(Hd & Hunder & Hty)|(Hd & j & Hunder)];
    apply Huniq in Hunder; subst s.
  - pose proof (literalOf_path _ _ Hl) as Hla.
    destruct e as [|x [|y e]].
    + now apply Hself.
    + assert (x = s_typeAnnotation)
        by (destruct Hs as [Hs|[Hs|[Hs|[[i Hs]|[i Hs]]]]]; simpl in Hs;
            congruence).
      subst x. rewrite Hla in E. injection E as E.
      apply (same_path_same_node _ _ _ _ Ra Hb) in E. subst a.
      apply literalOf_spec in Hl. destruct Hl as (Hl & _). congruence.
    + destruct Hs as [Hs|[Hs|[Hs|[[i Hs]|[i Hs]]]]];
        destruct e as [|z [|z' e]]; simpl in Hs; try discriminate;
        destruct e; discriminate.
  - assert (Hin : In (s_other j) (e ++ s_other j :: w))
      by (apply in_or_app; right; now left).
    destruct Hs as [Hs|[Hs|[Hs|[[i Hs]|[i Hs]]]]]; rewrite Hs in Hin;
      simpl in Hin; intuition discriminate.
Qed.

Lemma definition_body_not_flagged_witness :
  let f := mkFinding wrapper_cfg_literal "inlineType"
             (fixOf wrapper_text wrapper_cfg_annotation wrapper_cfg_literal) in
  In wrapper_literal (walk [] wrapper_program)
  /\ parent wrapper_literal = Some wrapper_alias
  /\ type (focus wrapper_alias) = "TSTypeAliasDeclaration"
  /\ sitsUnder s_typeAnnotation wrapper_literal = true
  /\ type (focus wrapper_literal) = "TSTypeLiteral"
  /\ spansMultipleLines (focus wrapper_literal) = true
  /\ In f (runRule wrapper_text wrapper_program)
  /\ unselected wrapper_literal = true
  /\ path (f_node f) <> path wrapper_literal
  /\ forall e, path (f_node f) <> e ++ path wrapper_literal.
Proof.
  cbv zeta.
  assert (H1 : In wrapper_literal (walk [] wrapper_program))
    by (vm_compute; auto 10).
  assert (H2 : parent wrapper_literal = Some wrapper_alias) by reflexivity.
  assert (H3 : In (mkFinding wrapper_cfg_literal "inlineType"
                     (fixOf wrapper_text wrapper_cfg_annotation
                        wrapper_cfg_literal))
                  (runRule wrapper_text wrapper_program))
    by (vm_compute; auto).
  assert (H4 : unselected wrapper_literal = true) by reflexivity.
  pose proof (definition_body_not_flagged wrapper_text wrapper_program
                wrapper_alias wrapper_literal _ H1 H2
                (or_introl (conj eq_refl (conj eq_refl eq_refl))) H3)
    as [Ha Hb].
  repeat (split; [first [assumption|reflexivity]|]).
  exact (Hb H4).
Defined.

(** C4: a fix, when a finding has one, is two edits: the text
    [type <Name> = <text of the literal>;] and a blank line, inserted at the
    first character of the insertion anchor, and the range of the literal
    replaced by [<Name>], with the name derived from the annotation in both. *)
Theorem fix_inserts_alias_and_replaces_literal (sourceCode : string)
    (program : Node) (f : Finding) (edits : list Fix) :
  In f (runRule sourceCode program) ->
  f_fix f = Some edits ->
  exists a anchor,
    parent (f_node f) = Some a
    /\ findInsertionPointAncestor a = Some anchor
    /\ edits =
       [ mkFix (fst (range (focus anchor)), fst (range (focus anchor)))
           ("type " ++ deriveTypeName a ++ " = "
            ++ substring (fst (range (focus (f_node f))))
                 (snd (range (focus (f_node f)))
                  - fst (range (focus (f_node f)))) sourceCode
            ++ ";" ++ nl ++ nl)%string;
         mkFix (range (focus (f_node f))) (deriveTypeName a) ].
Proof.
  intros Hf Hfix. apply finding_origin in Hf.
  destruct Hf as (q & a & _ & _ & Hl & Ef). rewrite Ef in Hfix.
  simpl in Hfix. unfold fixOf in Hfix.
  destruct (findInsertionPointAncestor a) as [anchor|] eqn:Ea;
    [|discriminate].
  injection Hfix as <-. exists a, anchor.
  split; [apply literalOf_parent, Hl|]. split; [exact Ea|].
  unfold insertTextBefore, replaceText, getText. reflexivity.
Qed.

Lemma fix_inserts_alias_and_replaces_literal_witness :
  let f := mkFinding (descendFrom cfg_annotation [s_typeAnnotation])
             "inlineType"
             (Some [ mkFix (0, 0)
                       ("type CfgType = { host: string; port: number };"
                        ++ nl ++ nl)%string;
                     mkFix (9, 39) "CfgType" ]) in
  In f (runRule cfg_text cfg_program)
  /\ exists a anchor,
       parent (f_node f) = Some a
       /\ findInsertionPointAncestor a = Some anchor
       /\ [ mkFix (0, 0)
              ("type CfgType = { host: string; port: number };"
               ++ nl ++ nl)%string;
            mkFix (9, 39) "CfgType" ] =
          [ mkFix (fst (range (focus anchor)), fst (range (focus anchor)))
              ("type " ++ deriveTypeName a ++ " = "
               ++ substring (fst (range (focus (f_node f))))
                    (snd (range (focus (f_node f)))
                     - fst (range (focus (f_node f)))) cfg_text
               ++ ";" ++ nl ++ nl)%string;
            mkFix (range (focus (f_node f))) (deriveTypeName a) ].
Proof.
  cbv zeta.
  assert (H : In (mkFinding (descendFrom cfg_annotation [s_typeAnnotation])
                    "inlineType"
                    (Some [ mkFix (0, 0)
                              ("type CfgType = { host: string; port: number };"
                               ++ nl ++ nl)%string;
                            mkFix (9, 39) "CfgType" ]))
                 (runRule cfg_text cfg_program))
    by (vm_compute; auto).
  split; [exact H|].
  exact (fix_inserts_alias_and_replaces_literal cfg_text cfg_program _ _
           H eq_refl).
Defined.

(** C5: when no insertion point is found for an annotation site, its finding
    is reported all the same, without a fix, and the finding of every other
    site of the file is reported with the fix of its own. *)
Theorem unresolved_insertion_point_withholds_only_the_fix
    (sourceCode : string) (program : Node) (q a l q' a' l' : Cursor) :
  In q (walk [] program) -> In a (sites q) -> literalOf a = Some l ->
  findInsertionPointAncestor a = None ->
  In q' (walk [] program) -> In a' (sites q') -> literalOf a' = Some l' ->
  In (mkFinding l "inlineType" None) (runRule sourceCode program)
  /\ In (mkFinding l' "inlineType" (fixOf sourceCode a' l'))
        (runRule sourceCode program).
Proof.
  intros Hq Ha Hl Hnone Hq' Ha' Hl'. apply in_walk in Hq, Hq'. split.
  - apply finding_origin. exists q, a. simpl. repeat split; auto.
    unfold fixOf. rewrite Hnone. reflexivity.
  - apply finding_origin. exists q', a'. simpl. auto.
Qed.

Lemma unresolved_insertion_point_withholds_only_the_fix_witness :
  let l := descendFrom arrow_annotation [s_typeAnnotation] in
  let l' := descendFrom arrow_cfg_annotation [s_typeAnnotation] in
  findInsertionPointAncestor arrow_annotation = None
  /\ In (mkFinding l "inlineType" None) (runRule arrow_text arrow_program)
  /\ In (mkFinding l' "inlineType"
           (Some [ mkFix (40, 40)
                     ("type CfgType = { host: string };" ++ nl ++ nl)%string;
                   mkFix (49, 65) "CfgType" ]))
        (runRule arrow_text arrow_program).
Proof.
  cbv zeta. split; [reflexivity|].
  refine (unresolved_insertion_point_withholds_only_the_fix
            arrow_text arrow_program
            arrow_function arrow_annotation _
            arrow_cfg_declarator arrow_cfg_annotation _
            _ _ eq_refl eq_refl _ _ eq_refl).
  - vm_compute; auto 10.
  - vm_compute; auto.
  - vm_compute; auto 10.
  - vm_compute; auto.
Defined.

Lemma throw_is_caught :
  (exists par, parent throwing_annotation = Some par
               /\ deriveTypeNameTry throwing_annotation par = Throw)
  /\ deriveTypeName throwing_annotation = "ExtractedType".
Proof. split; [eexists; split; reflexivity|reflexivity]. Qed.

(** C6: an annotation that is in none of the six cases, or whose inspection
    throws, gets the name [ExtractedType]; and if its type is an object
    literal the finding is reported with that name in its fix. *)
Theorem unmatched_context_falls_back (sourceCode : string) (a : Cursor) :
  (caseVariableBinding a = false /\ caseIdentifierParameter a = false
   /\ caseObjectPatternParameter a = false
   /\ caseArrayPatternParameter a = false
   /\ caseClassProperty a = false /\ caseFunctionReturn a = false)
  \/ (exists par, parent a = Some par /\ deriveTypeNameTry a par = Throw) ->
  deriveTypeName a = "ExtractedType"
  /\ forall l, literalOf a = Some l ->
               checkMultilineLiteralInAnnotation sourceCode (Some a)
               = [mkFinding l "inlineType" (fixOf sourceCode a l)]
               /\ (forall edits, fixOf sourceCode a l = Some edits ->
                                 exists ins, edits =
                                   [ins; mkFix (range (focus l))
                                           "ExtractedType"]).
Proof.
  intros H.
  assert (Hname : deriveTypeName a = "ExtractedType").
  { destruct H as [(H1 & H2 & H3 & H4 & H5 & H6)|(par & Hp & Ht)].
    - unfold deriveTypeName, caseVariableBinding, caseIdentifierParameter,
        caseObjectPatternParameter, caseArrayPatternParameter,
        caseClassProperty, caseFunctionReturn, grandparentType, parentType
        in *.
      destruct (parent a) as [par|]; [|reflexivity].
      unfold deriveTypeNameTry, derivePattern, deriveFromParent.
      unfold parentType in *.
      destruct (parent par) as [pp|]; simpl in *.
      + destruct (type (focus par) =? "Identifier") eqn:E1;
          destruct (type (focus pp) =? "VariableDeclarator") eqn:E2;
          destruct (isFunction (type (focus pp))) eqn:E3;
          destruct (type (focus pp) =? "TSParameterProperty") eqn:E4;
          destruct (inParams par) eqn:E5;
          destruct (sitsUnder s_parameter par) eqn:E6;
          destruct (type (focus par) =? "ObjectPattern") eqn:E7;
          destruct (type (focus par) =? "ArrayPattern") eqn:E8;
          destruct (type (focus par) =? "PropertyDefinition") eqn:E9;
          destruct (isFunction (type (focus par))) eqn:E10;
          destruct (sitsUnder s_returnType a) eqn:E11;
          destruct (type (focus par) =? "TSParameterProperty") eqn:E12;
          simpl in *; try discriminate; try reflexivity;
          repeat case_bool.
      + destruct (type (focus par) =? "Identifier") eqn:E1;
          destruct (type (focus par) =? "PropertyDefinition") eqn:E9;
          destruct (isFunction (type (focus par))) eqn:E10;
          destruct (sitsUnder s_returnType a) eqn:E11;
          destruct (type (focus par) =? "TSParameterProperty") eqn:E12;
          simpl in *; try discriminate; try reflexivity;
          repeat case_bool.
    - unfold deriveTypeName. rewrite Hp, Ht. reflexivity. }
  split; [exact Hname|]. intros l Hl. split.
  - rewrite check_literalOf, Hl. reflexivity.
  - intros edits. unfold fixOf. rewrite Hname.
    destruct (findInsertionPointAncestor a); [|discriminate].
    intros [= <-]. eexists. reflexivity.
Qed.

Lemma unmatched_context_falls_back_witness :
  (caseVariableBinding destructured_annotation = false
   /\ caseIdentifierParameter destructured_annotation = false
   /\ caseObjectPatternParameter destructured_annotation = false
   /\ caseArrayPatternParameter destructured_annotation = false
   /\ caseClassProperty destructured_annotation = false
   /\ caseFunctionReturn destructured_annotation = false)
  /\ deriveTypeName destructured_annotation = "ExtractedType".
Proof.
  assert (H : caseVariableBinding destructured_annotation = false
              /\ caseIdentifierParameter destructured_annotation = false
              /\ caseObjectPatternParameter destructured_annotation = false
              /\ caseArrayPatternParameter destructured_annotation = false
              /\ caseClassProperty destructured_annotation = false
              /\ caseFunctionReturn destructured_annotation = false)
    by (repeat split; reflexivity).
  split; [exact H|].
  exact (proj1 (unmatched_context_falls_back "" destructured_annotation
                  (or_introl H))).
Defined.

(** C7: when the loop, having climbed from the start node to a node [cur]
    with parent [par], finds that [cur] is a target declaration and [par] an
    export wrapper, the resolver returns the wrapper [par]; and when [cur]
    is itself an export wrapper whose declaration is a target kind, it
    returns [cur]. *)
Theorem export_wrapper_is_the_insertion_point (startNode : Cursor)
    (chain : list (step * Node)) (s : step) (par : Node)
    (ups : list (step * Node)) :
  up startNode = chain ++ (s, par) :: ups ->
  climbs (focus startNode) chain = true ->
  (has targetAncestorTypes (type (topOf (focus startNode) chain)) = true ->
   isExport (type par) = true ->
   findInsertionPointAncestor startNode = Some (mkCursor par ups))
  /\ (isExport (type (topOf (focus startNode) chain)) = true ->
      declaresTarget (topOf (focus startNode) chain) = true ->
      findInsertionPointAncestor startNode
      = Some (mkCursor (topOf (focus startNode) chain) ((s, par) :: ups))).
Proof.
  intros Hup Hc. unfold findInsertionPointAncestor.
  rewrite Hup, (loop_climbs _ _ _ _ Hc). cbn [ancestorLoop]. split.
  - intros Ht He. rewrite Ht, (isExport_valid _ He), He. reflexivity.
  - intros He Hd. rewrite (isExport_not_target _ He), He, Hd. reflexivity.
Qed.

Lemma export_wrapper_is_the_insertion_point_witness :
  (findInsertionPointAncestor exportClass_annotation
   = Some exportClass_wrapper)
  /\ (findInsertionPointAncestor beside_declaration
      = parent beside_declaration).
Proof.
  split.
  - refine (proj1 (export_wrapper_is_the_insertion_point
                     exportClass_annotation
                     (firstn 3 (up exportClass_annotation)) s_declaration
                     (focus exportClass_wrapper)
                     (up exportClass_wrapper) eq_refl eq_refl)
                  eq_refl eq_refl).
  - refine (proj2 (export_wrapper_is_the_insertion_point
                     beside_declaration
                     (firstn 1 (up beside_declaration)) (s_other 0)
                     (Examples.leaf "Program" (0, 19)
                        (Examples.at_ 1 0 1 19))
                     [] eq_refl eq_refl)
                  eq_refl eq_refl).
Defined.





(** C10, as stated, fails: in [const C = class { p: { x: number }; };] the
    annotation is that of a class property and the anchor is the variable
    declaration, neither a class declaration nor an export wrapper. *)
Lemma class_expression_anchor_is_the_statement :
  type (focus classExpr_body) = "ClassBody"
  /\ up classExpr_annotation
     = firstn 1 (up classExpr_annotation)
       ++ (s_other 0, focus classExpr_body) :: up classExpr_body
  /\ classMemberChain (firstn 1 (up classExpr_annotation)) = true
  /\ exists anchor,
       findInsertionPointAncestor classExpr_annotation = Some anchor
       /\ type (focus anchor) = "VariableDeclaration"
       /\ type (focus anchor) <> "ClassDeclaration"
       /\ isExport (type (focus anchor)) = false.
Proof.
  repeat split; try reflexivity.
  eexists. repeat split; try reflexivity. discriminate.
Qed.

(** C10, amended: for the annotation of a class property or of a parameter
    of a method, whenever an anchor is found it is a proper ancestor of the
    class body, never a node inside it; and it is the class declaration, or
    its export wrapper, when the class is a class declaration whose parent
    is a program, a block or an export wrapper. *)
Theorem class_member_anchor_is_outside_the_class_body (a anchor : Cursor)
    (chain : list (step * Node)) (sb sc : step) (body cls : Node)
    (ups : list (step * Node)) :
  type (focus a) = "TSTypeAnnotation" ->
  up a = chain ++ (sb, body) :: (sc, cls) :: ups ->
  classMemberChain chain = true ->
  type body = "ClassBody" ->
  findInsertionPointAncestor a = Some anchor ->
  In anchor (ancestorsOf ((sc, cls) :: ups))
  /\ (type cls = "ClassDeclaration" ->
      forall sp par ups',
        ups = (sp, par) :: ups' ->
        has validParentContextTypes (type par) = true ->
        anchor = if isExport (type par)
                 then mkCursor par ups' else mkCursor cls ups).
Proof.
  intros Ha Hup Hc Hb Hfind. unfold findInsertionPointAncestor in Hfind.
  destruct (classMemberChain_climbs a chain sb body Ha Hc Hb) as [Hcl Htop].
  change (chain ++ (sb, body) :: (sc, cls) :: ups)
    with (chain ++ [(sb, body)] ++ (sc, cls) :: ups) in Hup.
  rewrite app_assoc in Hup.
  rewrite Hup, (loop_climbs _ _ _ _ Hcl), Htop in Hfind. split.
  - apply loop_result in Hfind.
    destruct Hfind as [[_ H]|[[_ H]|H]]; [| |exact H].
    + rewrite Ha in H. discriminate.
    + rewrite Hb in H. destruct H; discriminate.
  - intros Hcls sp par ups' -> Hv. cbn [ancestorLoop] in Hfind.
    assert (T1 : has targetAncestorTypes (type body) = false)
      by (rewrite Hb; reflexivity).
    assert (T2 : isExport (type body) = false) by (rewrite Hb; reflexivity).
    assert (T3 : (type cls =? "Program") = false)
      by (rewrite Hcls; reflexivity).
    assert (T4 : has targetAncestorTypes (type cls) = true)
      by (rewrite Hcls; reflexivity).
    rewrite T1, T2, T3, T4, Hv in Hfind. cbn [andb] in Hfind.
    destruct (isExport (type par)); now injection Hfind as <-.
Qed.

Lemma class_member_anchor_is_outside_the_class_body_witness :
  In exportClass_wrapper (ancestorsOf (up exportClass_body))
  /\ exportClass_wrapper
     = (if isExport (type (focus exportClass_wrapper))
        then exportClass_wrapper
        else descendFrom exportClass_wrapper [s_declaration]).
Proof.
  destruct (class_member_anchor_is_outside_the_class_body
              exportClass_annotation exportClass_wrapper
              (firstn 1 (up exportClass_annotation)) (s_other 0) (s_other 0)
              (focus exportClass_body)
              (focus (descendFrom exportClass_wrapper [s_declaration]))
              (up (descendFrom exportClass_wrapper [s_declaration]))
              eq_refl eq_refl eq_refl eq_refl eq_refl) as [H1 H2].
  split; [exact H1|].
  exact (H2 eq_refl s_declaration (focus exportClass_wrapper)
            (up exportClass_wrapper) eq_refl eq_refl).
Defined.

(** ** Further properties: [toPascalCase] *)

Lemma string_ind2 (P : string -> Prop) :
  P EmptyString -> (forall c, P (String c EmptyString)) ->
  (forall c d r, P r -> P (String d r) -> P (String c (String d r))) ->
  forall s, P s.
Proof.
  intros H0 H1 H2.
  assert (H : forall s, P s /\ forall c, P (String c s)).
  { induction s as [|d r [IHr IHc]]; split; auto. }
  intros s. apply H.
Qed.

Lemma isLower_upper c : isLower (upper c) = false.
Proof.
  destruct c as [[] [] [] [] [] [] [] []]; reflexivity.
Qed.

Lemma upper_upper c : upper (upper c) = upper c.
Proof.
  destruct c as [[] [] [] [] [] [] [] []]; reflexivity.
Qed.

Lemma upper_underscore c : (upper c =? "_")%char = (c =? "_")%char.
Proof.
  destruct c as [[] [] [] [] [] [] [] []]; reflexivity.
Qed.

Lemma isLower_not_underscore c : isLower c = true -> (c =? "_")%char = false.
Proof.
  destruct c as [[] [] [] [] [] [] [] []]; simpl; auto; discriminate.
Qed.

(** The first character of the result of the replacement is the first
    character of the input, or stems from a replacement. *)
Lemma replaceSnake_head d r :
  exists h t, replaceSnake (String d r) = String h t
              /\ (h = d \/ (isLower h = false /\ (h =? "_")%char = false)).
Proof.
  destruct r as [|e r]; simpl; [eauto|].
  destruct ((d =? "_")%char && isLower e) eqn:E; [|eauto].
  apply andb_prop in E. destruct E as [_ E].
  exists (upper e), (replaceSnake r). split; [reflexivity|right].
  rewrite isLower_upper, upper_underscore. auto using isLower_not_underscore.
Qed.

Lemma noSnake_cons c d r :
  noSnake (String c (String d r))
  = negb ((c =? "_")%char && isLower d) && noSnake (String d r).
Proof. reflexivity. Qed.

Lemma replaceSnake_cons c d r :
  replaceSnake (String c (String d r))
  = if (c =? "_")%char && isLower d
    then String (upper d) (replaceSnake r)
    else String c (replaceSnake (String d r)).
Proof. reflexivity. Qed.

Lemma replaceSnake_noSnake s : noSnake (replaceSnake s) = true.
Proof.
  induction s as [|c|c d r IHr IHd] using string_ind2; try reflexivity.
  rewrite replaceSnake_cons.
  destruct ((c =? "_")%char && isLower d) eqn:E.
  - apply andb_prop in E. destruct E as [_ E].
    destruct (replaceSnake r) as [|h t] eqn:Er; [reflexivity|].
    rewrite noSnake_cons, IHr, upper_underscore,
      (isLower_not_underscore _ E).
    reflexivity.
  - destruct (replaceSnake_head d r) as (h & t & Eh & Hh).
    rewrite Eh in *. rewrite noSnake_cons, IHd, andb_true_r.
    apply negb_true_iff.
    destruct (c =? "_")%char eqn:Ec; [|reflexivity]. simpl in E.
    destruct Hh as [->|[Hh _]]; simpl; assumption.
Qed.

Lemma replaceSnake_fixed s : noSnake s = true -> replaceSnake s = s.
Proof.
  induction s as [|c r IH]; [reflexivity|]. destruct r as [|d r];
    [reflexivity|].
  intros H. rewrite noSnake_cons in H. apply andb_prop in H.
  destruct H as [H1 H2]. apply negb_true_iff in H1.
  rewrite replaceSnake_cons, H1, (IH H2). reflexivity.
Qed.

Lemma noUnderscore_noSnake s : noUnderscore s = true -> noSnake s = true.
Proof.
  induction s as [|c r IH]; [reflexivity|]. intros H. cbn [noUnderscore] in H.
  apply andb_prop in H. destruct H as [H1 H2]. apply negb_true_iff in H1.
  destruct r as [|d r]; [reflexivity|].
  rewrite noSnake_cons, H1, (IH H2). reflexivity.
Qed.

Lemma replaceSnake_length s :
  String.length (replaceSnake s) <= String.length s.
Proof.
  induction s as [|c|c d r IHr IHd] using string_ind2; try (simpl; lia).
  rewrite replaceSnake_cons.
  destruct ((c =? "_")%char && isLower d); simpl String.length in *; lia.
Qed.

Lemma replaceSnake_nonempty c r : replaceSnake (String c r) <> EmptyString.
Proof.
  destruct (replaceSnake_head c r) as (h & t & E & _). rewrite E.
  discriminate.
Qed.

(** X1.  [toPascalCase] returns the empty string exactly for a falsy
    argument, [undefined] or the empty string. *)
Theorem toPascalCase_empty_iff_falsy (str : option string) :
  toPascalCase str = EmptyString <-> truthy str = false.
Proof.
  destruct str as [[|c r]|]; simpl; split; auto; try discriminate.
  intros H. destruct (replaceSnake_head c r) as (h & t & E & _).
  simpl in E. rewrite E in H. discriminate.
Qed.

(** X2.  In a name without underscores that begins with an ASCII character
    only the first character changes: it is upper-cased, the rest is
    kept. *)
Theorem toPascalCase_without_underscore (c : ascii) (rest : string) :
  isAscii c = true ->
  noUnderscore (String c rest) = true ->
  toPascalCase (Some (String c rest)) = String (upper c) rest.
Proof.
  intros _ H. apply noUnderscore_noSnake, replaceSnake_fixed in H.
  unfold toPascalCase. rewrite H. reflexivity.
Qed.

Lemma toPascalCase_without_underscore_witness :
  isAscii "f" = true
  /\ noUnderscore "fetchData" = true
  /\ toPascalCase (Some "fetchData") = "FetchData".
Proof.
  split; [reflexivity|]. split; [reflexivity|].
  exact (toPascalCase_without_underscore "f" "etchData" eq_refl eq_refl).
Defined.

Lemma toPascalCase_noSnake str : noSnake (toPascalCase str) = true.
Proof.
  destruct str as [[|c r]|]; try reflexivity.
  pose proof (replaceSnake_noSnake (String c r)) as H.
  unfold toPascalCase. destruct (replaceSnake (String c r)) as [|h t];
    [reflexivity|].
  destruct t as [|d t]; [reflexivity|]. rewrite noSnake_cons in *.
  rewrite upper_underscore. exact H.
Qed.

Lemma toPascalCase_head str c r :
  toPascalCase str = String c r -> upper c = c /\ isLower c = false.
Proof.
  destruct str as [[|c0 r0]|]; try discriminate. unfold toPascalCase.
  destruct (replaceSnake (String c0 r0)) as [|h t]; [discriminate|].
  intros [= <- _]. split; [apply upper_upper|apply isLower_upper].
Qed.

(** X3.  In the result no underscore is followed by a lower-case letter, and
    the result does not begin with a lower-case letter. *)
Theorem toPascalCase_result_shape (str : option string) :
  noSnake (toPascalCase str) = true
  /\ match toPascalCase str with
     | String c _ => isLower c = false
     | EmptyString => True
     end.
Proof.
  split; [apply toPascalCase_noSnake|].
  destruct (toPascalCase str) as [|c r] eqn:E; [exact I|].
  apply toPascalCase_head in E. apply E.
Qed.

(** X4.  [toPascalCase] is idempotent. *)
Theorem toPascalCase_idempotent (str : option string) :
  toPascalCase (Some (toPascalCase str)) = toPascalCase str.
Proof.
  pose proof (toPascalCase_noSnake str) as Hs.
  destruct (toPascalCase str) as [|c r] eqn:E; [reflexivity|].
  apply toPascalCase_head in E. destruct E as [Hc _].
  unfold toPascalCase. rewrite (replaceSnake_fixed _ Hs), Hc. reflexivity.
Qed.

(** X5.  For a name that begins with an ASCII character the result is never
    longer than the name. *)
Theorem toPascalCase_length (s : string) :
  asciiInitial s = true ->
  String.length (toPascalCase (Some s)) <= String.length s.
Proof.
  intros _.
  pose proof (replaceSnake_length s) as H. destruct s as [|c r]; [simpl; lia|].
  unfold toPascalCase. destruct (replaceSnake (String c r)); simpl in *; lia.
Qed.

Lemma toPascalCase_length_witness :
  asciiInitial "my_config" = true
  /\ toPascalCase (Some "my_config") = "MyConfig"
  /\ String.length (toPascalCase (Some "my_config"))
     <= String.length "my_config".
Proof.
  split; [reflexivity|]. split; [reflexivity|].
  exact (toPascalCase_length "my_config" eq_refl).
Defined.

(** ** Further properties: [deriveTypeName] *)

(** X6.  The annotation of a variable bound by a plain identifier is named
    [PascalCase(identifier) + Type]. *)
Theorem variable_binding_name (a binding declarator : Cursor) :
  parent a = Some binding ->
  type (focus binding) = "Identifier" ->
  parent binding = Some declarator ->
  type (focus declarator) = "VariableDeclarator" ->
  deriveTypeName a = (toPascalCase (name (focus binding)) ++ "Type")%string.
Proof.
  intros Hp Hi Hpp Hd. unfold deriveTypeName. rewrite Hp.
  unfold deriveTypeNameTry. rewrite Hpp, Hi, Hd. reflexivity.
Qed.

Lemma variable_binding_name_witness :
  deriveTypeName cfg_annotation = "CfgType".
Proof.
  exact (variable_binding_name cfg_annotation cfg_identifier
           (descendFrom (mkCursor cfg_program []) [s_other 0; s_other 0])
           eq_refl eq_refl eq_refl eq_refl).
Defined.

(** X7.  The annotation of a parameter that is a plain identifier is named
    [PascalCase(parameter) + Type], for a parameter of a function and for the
    parameter of a parameter property alike. *)
Theorem identifier_parameter_name (a param owner : Cursor) :
  parent a = Some param ->
  type (focus param) = "Identifier" ->
  parent param = Some owner ->
  (isFunction (type (focus owner)) = true /\ inParams param = true)
  \/ (type (focus owner) = "TSParameterProperty"
      /\ sitsUnder s_parameter param = true) ->
  deriveTypeName a = (toPascalCase (name (focus param)) ++ "Type")%string.
Proof.
  intros Hp Hi Hpp H. unfold deriveTypeName. rewrite Hp.
  unfold deriveTypeNameTry. rewrite Hpp, Hi. cbn [andb].
  destruct (type (focus owner) =? "VariableDeclarator") eqn:Ev;
    [reflexivity|].
  destruct H as [[Hf Hin]|[Ht Hs]].
  - rewrite Hf, Hin. reflexivity.
  - rewrite Ht, Hs. simpl. destruct (inParams param); reflexivity.
Qed.

Lemma identifier_parameter_name_witness :
  deriveTypeName ctor_annotation = "PType"
  /\ deriveTypeName paramProp_annotation = "ConfigType".
Proof.
  split.
  - exact (identifier_parameter_name ctor_annotation ctor_identifier
             (descendFrom (mkCursor ctor_program [])
                [s_other 0; s_other 0; s_other 0; s_other 0])
             eq_refl eq_refl eq_refl (or_introl (conj eq_refl eq_refl))).
  - exact (identifier_parameter_name paramProp_annotation
             paramProp_identifier
             (descendFrom (mkCursor paramProp_program [])
                [s_other 0; s_other 0; s_other 0; s_other 0; s_params 0])
             eq_refl eq_refl eq_refl (or_intror (conj eq_refl eq_refl))).
Defined.

(** X8.  The annotation of a destructured array parameter is named
    [ParamsType], whatever the function. *)
Theorem array_pattern_parameter_name (a pattern fn : Cursor) :
  parent a = Some pattern ->
  type (focus pattern) = "ArrayPattern" ->
  parent pattern = Some fn ->
  isFunction (type (focus fn)) = true ->
  deriveTypeName a = "ParamsType".
Proof.
  intros Hp Ht Hpp Hfn. unfold deriveTypeName. rewrite Hp.
  unfold deriveTypeNameTry, derivePattern. rewrite Hpp, Ht, Hfn.
  reflexivity.
Qed.

Lemma array_pattern_parameter_name_witness :
  deriveTypeName arrayPattern_annotation = "ParamsType".
Proof.
  exact (array_pattern_parameter_name arrayPattern_annotation
           arrayPattern_pattern
           (descendFrom (mkCursor arrayPattern_program []) [s_other 0])
           eq_refl eq_refl eq_refl eq_refl).
Defined.

(** X9.  The annotation of a class property whose key is an identifier is
    named [PascalCase(key) + Type]. *)
Theorem class_property_name (a property k : Cursor) :
  parent a = Some property ->
  type (focus property) = "PropertyDefinition" ->
  child s_key property = Some k ->
  type (focus k) = "Identifier" ->
  deriveTypeName a = (toPascalCase (name (focus k)) ++ "Type")%string.
Proof.
  intros Hp Ht Hk Hi. unfold deriveTypeName. rewrite Hp.
  apply child_up in Hk. destruct Hk as [_ Hk]. simpl in Hk.
  assert (Hfrom : deriveFromParent a property
                  = Return (toPascalCase (name (focus k)) ++ "Type")).
  { unfold deriveFromParent. rewrite Ht, Hk, Hi. reflexivity. }
  unfold deriveTypeNameTry, derivePattern. rewrite Ht. simpl.
  destruct (parent property); rewrite Hfrom; reflexivity.
Qed.

Lemma class_property_name_witness :
  deriveTypeName exportClass_annotation = "PType".
Proof.
  exact (class_property_name exportClass_annotation exportClass_property
           (descendFrom exportClass_property [s_key])
           eq_refl eq_refl eq_refl eq_refl).
Defined.

Lemma append_assoc (a b c : string) :
  ((a ++ b) ++ c = a ++ (b ++ c))%string.
Proof. induction a as [|x a IH]; simpl; [|rewrite IH]; reflexivity. Qed.

Lemma ends_Type x : endsInTypeOrProps (x ++ "Type").
Proof. exists x. now left. Qed.

Lemma ends_Props x : endsInTypeOrProps (x ++ "Props").
Proof. exists x. now right. Qed.

Lemma ends_ReturnType x : endsInTypeOrProps (x ++ "ReturnType").
Proof.
  exists (x ++ "Return")%string. left. rewrite append_assoc. reflexivity.
Qed.

Lemma deriveTypeNameTry_suffix a par :
  match deriveTypeNameTry a par with
  | Return s => endsInTypeOrProps s
  | FallThrough => True
  | Throw => True
  end.
Proof.
  unfold deriveTypeNameTry, derivePattern, deriveFromParent,
    deriveReturnTypeName.
  repeat match goal with
         | |- context [if ?b then _ else _] => destruct b
         | |- context [match ?o with Some _ => _ | None => _ end] =>
             destruct o
         end;
    cbv beta iota;
    first [ exact I | apply ends_ReturnType | apply ends_Type
          | apply ends_Props | exact (ends_Type "Props")
          | exact (ends_Type "Params") ].
Qed.

(** X10.  Every derived name ends in [Type] or in [Props]; in particular it
    is never empty. *)
Theorem derived_name_suffix (a : Cursor) :
  exists p, deriveTypeName a = (p ++ "Type")%string
            \/ deriveTypeName a = (p ++ "Props")%string.
Proof.
  change (endsInTypeOrProps (deriveTypeName a)).
  unfold deriveTypeName. destruct (parent a) as [par|];
    [|exact (ends_Type "Extracted")].
  pose proof (deriveTypeNameTry_suffix a par) as H.
  destruct (deriveTypeNameTry a par); [exact H| |];
    exact (ends_Type "Extracted").
Qed.

(** ** Further properties: [findInsertionPointAncestor] *)

Lemma valid_not_export t :
  has validParentContextTypes t = true -> isExport t = false ->
  t = "Program" \/ t = "BlockStatement".
Proof.
  unfold has, validParentContextTypes, isExport. cbn [existsb].
  intros H He. apply orb_false_elim in He. destruct He as [E1 E2].
  rewrite E1, E2 in H. cbn [orb] in H. rewrite !orb_false_r in H.
  apply orb_prop in H. destruct H as [H|H]; apply String.eqb_eq in H; auto.
Qed.

(** What the loop returns, unless it is the start node, is an export
    wrapper or a target declaration directly in a program or a block. *)
Lemma loop_statement_level startNode :
  forall ups cur r,
    ancestorLoop startNode cur ups = Some r ->
    (r = startNode /\ has targetAncestorTypes (type (focus startNode)) = true)
    \/ isExport (type (focus r)) = true
    \/ (has targetAncestorTypes (type (focus r)) = true
        /\ exists s p ups', up r = (s, p) :: ups'
                            /\ (type p = "Program"
                                \/ type p = "BlockStatement")).
Proof.
  induction ups as [|[s par] ups IH]; intros cur r H; cbn [ancestorLoop] in H;
    [discriminate|].
  destruct (has targetAncestorTypes (type cur)
            && has validParentContextTypes (type par)) eqn:E1.
  { apply andb_prop in E1. destruct E1 as [Ht Hv].
    destruct (isExport (type par)) eqn:Ex; injection H as <-.
    - right. left. exact Ex.
    - right. right. split; [exact Ht|]. exists s, par, ups.
      split; [reflexivity|]. apply valid_not_export; assumption. }
  destruct (isExport (type cur) && declaresTarget cur) eqn:E2.
  { apply andb_prop in E2. destruct E2 as [E2 _]. injection H as <-.
    right. left. exact E2. }
  destruct (type par =? "Program").
  { destruct (has targetAncestorTypes (type (focus startNode))) eqn:E3;
      [|discriminate].
    injection H as <-. left. auto. }
  apply IH in H. exact H.
Qed.

Lemma annotation_not_target a :
  type (focus a) = "TSTypeAnnotation" ->
  has targetAncestorTypes (type (focus a)) = false
  /\ isExport (type (focus a)) = false.
Proof. intros ->. split; reflexivity. Qed.

Lemma anchor_above_annotation a anchor :
  type (focus a) = "TSTypeAnnotation" ->
  findInsertionPointAncestor a = Some anchor ->
  In anchor (ancestorsOf (up a)).
Proof.
  intros Ha H. destruct (annotation_not_target a Ha) as [Ht He].
  apply loop_result in H. destruct H as [[_ H]|[[_ H]|H]]; [| |exact H].
  - rewrite Ht in H. discriminate.
  - rewrite Ht, He in H. destruct H; discriminate.
Qed.

(** X11.  The anchor found for an annotation is a proper ancestor of the
    annotation, and it is an export wrapper or a target declaration whose
    parent is a program or a block statement. *)
Theorem anchor_is_a_statement (a anchor : Cursor) :
  type (focus a) = "TSTypeAnnotation" ->
  findInsertionPointAncestor a = Some anchor ->
  In anchor (ancestorsOf (up a))
  /\ (isExport (type (focus anchor)) = true
      \/ (has targetAncestorTypes (type (focus anchor)) = true
          /\ exists s p ups', up anchor = (s, p) :: ups'
                              /\ (type p = "Program"
                                  \/ type p = "BlockStatement"))).
Proof.
  intros Ha H. split; [apply anchor_above_annotation; assumption|].
  destruct (annotation_not_target a Ha) as [Ht _].
  apply loop_statement_level in H. destruct H as [[_ H]|H]; [|exact H].
  rewrite Ht in H. discriminate.
Qed.

Lemma anchor_is_a_statement_witness :
  findInsertionPointAncestor cfg_annotation
  = Some (descendFrom (mkCursor cfg_program []) [s_other 0])
  /\ In (descendFrom (mkCursor cfg_program []) [s_other 0])
        (ancestorsOf (up cfg_annotation))
  /\ type (focus (descendFrom (mkCursor cfg_program []) [s_other 0]))
     = "VariableDeclaration".
Proof.
  split; [reflexivity|]. split; [|reflexivity].
  exact (proj1 (anchor_is_a_statement cfg_annotation
                  (descendFrom (mkCursor cfg_program []) [s_other 0])
                  eq_refl eq_refl)).
Defined.

(** X12.  An annotation none of whose ancestors is a target declaration or
    an export wrapper gets no fix. *)
Theorem no_declaration_above_no_fix (sourceCode : string) (a l : Cursor) :
  type (focus a) = "TSTypeAnnotation" ->
  forallb (fun c => negb (has targetAncestorTypes (type (focus c)))
                    && negb (isExport (type (focus c))))
          (ancestorsOf (up a)) = true ->
  findInsertionPointAncestor a = None /\ fixOf sourceCode a l = None.
Proof.
  intros Ha Hall.
  assert (H : findInsertionPointAncestor a = None).
  { destruct (findInsertionPointAncestor a) as [r|] eqn:E; [|reflexivity].
    exfalso. pose proof (anchor_above_annotation a r Ha E) as Hin.
    rewrite forallb_forall in Hall. apply Hall in Hin.
    apply andb_prop in Hin. destruct Hin as [H1 H2].
    apply negb_true_iff in H1, H2.
    destruct (annotation_not_target a Ha) as [Ht _].
    apply loop_statement_level in E.
    destruct E as [[_ E]|[E|[E _]]]; congruence. }
  split; [exact H|]. unfold fixOf. rewrite H. reflexivity.
Qed.

Lemma no_declaration_above_no_fix_witness :
  map f_fix (runRule callback_text callback_program) = [None]
  /\ findInsertionPointAncestor callback_annotation = None
  /\ fixOf callback_text callback_annotation
       (descendFrom callback_annotation [s_typeAnnotation]) = None.
Proof.
  split; [reflexivity|].
  exact (no_declaration_above_no_fix callback_text callback_annotation
           (descendFrom callback_annotation [s_typeAnnotation])
           eq_refl eq_refl).
Defined.

(** X13.  The first node on the way up that is a target declaration with a
    program or a block statement as parent is the anchor. *)
Theorem nearest_declaration_in_a_container (startNode : Cursor)
    (chain : list (step * Node)) (s : step) (par : Node)
    (ups : list (step * Node)) :
  up startNode = chain ++ (s, par) :: ups ->
  climbs (focus startNode) chain = true ->
  has targetAncestorTypes (type (topOf (focus startNode) chain)) = true ->
  type par = "Program" \/ type par = "BlockStatement" ->
  findInsertionPointAncestor startNode
  = Some (mkCursor (topOf (focus startNode) chain) ((s, par) :: ups)).
Proof.
  intros Hup Hc Ht Hp. unfold findInsertionPointAncestor.
  rewrite Hup, (loop_climbs _ _ _ _ Hc). cbn [ancestorLoop]. rewrite Ht.
  destruct Hp as [-> | ->]; reflexivity.
Qed.

Lemma nearest_declaration_in_a_container_witness :
  findInsertionPointAncestor cfg_annotation
  = Some (descendFrom (mkCursor cfg_program []) [s_other 0]).
Proof.
  exact (nearest_declaration_in_a_container cfg_annotation
           (firstn 3 (up cfg_annotation)) (s_other 0) cfg_program []
           eq_refl eq_refl eq_refl (or_introl eq_refl)).
Defined.

(** X14.  When the way up reaches the program without a match, the search
    ends: there is no anchor, unless the start node is itself of a target
    kind, in which case it is returned. *)
Theorem program_root_ends_the_search (startNode : Cursor)
    (chain : list (step * Node)) (s : step) (par : Node)
    (ups : list (step * Node)) :
  up startNode = chain ++ (s, par) :: ups ->
  climbs (focus startNode) chain = true ->
  type par = "Program" ->
  has targetAncestorTypes (type (topOf (focus startNode) chain)) = false ->
  isExport (type (topOf (focus startNode) chain))
  && declaresTarget (topOf (focus startNode) chain) = false ->
  findInsertionPointAncestor startNode
  = if has targetAncestorTypes (type (focus startNode))
    then Some startNode else None.
Proof.
  intros Hup Hc Hp Ht He. unfold findInsertionPointAncestor.
  rewrite Hup, (loop_climbs _ _ _ _ Hc). cbn [ancestorLoop].
  rewrite Ht, He, Hp. reflexivity.
Qed.

Lemma program_root_ends_the_search_witness :
  findInsertionPointAncestor arrow_annotation = None.
Proof.
  exact (program_root_ends_the_search arrow_annotation
           (firstn 3 (up arrow_annotation)) (s_other 0) arrow_program []
           eq_refl eq_refl eq_refl eq_refl eq_refl).
Defined.

(** ** Further properties: the handlers and the fix *)

Lemma visit_unselected sourceCode c :
  selected (type (focus c)) = false -> visit sourceCode c = [].
Proof.
  unfold selected, visit. intros H.
  apply orb_false_elim in H. destruct H as [H H3].
  apply orb_false_elim in H. destruct H as [H1 H2].
  rewrite H1, H2, H3. reflexivity.
Qed.

Lemma flat_map_nil {A B : Type} (f : A -> list B) (l : list A) :
  (forall x, In x l -> f x = []) -> flat_map f l = [].
Proof.
  induction l as [|x l IH]; intros H; simpl; [reflexivity|].
  rewrite (H x) by now left. apply IH. intros y Hy. apply H. now right.
Qed.

Lemma filter_none {A : Type} (P : A -> bool) (l : list A) :
  (forall x, In x l -> P x = false) -> filter P l = [].
Proof.
  induction l as [|x l IH]; intros H; simpl; [reflexivity|].
  rewrite (H x) by now left. apply IH. intros y Hy. apply H. now right.
Qed.

Lemma startsNest_ancestors :
  forall ups n c,
    startsNest n ups = true -> In c (ancestorsOf ups) ->
    fst (range (focus c)) <= fst (range n).
Proof.
  induction ups as [|[s p] ups IH]; intros n c H Hin; [contradiction|].
  cbn [startsNest] in H. apply andb_prop in H. destruct H as [H1 H2].
  apply Nat.leb_le in H1. destruct Hin as [<-|Hin]; [exact H1|].
  specialize (IH p c H2 Hin). lia.
Qed.

Lemma check_keys_NoDup sourceCode (A : list Cursor) :
  NoDup (map path A) ->
  NoDup (map (fun f => path (f_node f))
           (flat_map
              (fun a => checkMultilineLiteralInAnnotation sourceCode (Some a))
              A)).
Proof.
  induction A as [|x A IH]; intros Hnd; cbn [flat_map map]; [constructor|].
  inversion Hnd as [|k ks Hnotin Hnd']; subst. rewrite map_app.
  rewrite check_literalOf. destruct (literalOf x) as [l|] eqn:El;
    [|apply IH, Hnd'].
  cbn [map app]. constructor; [|apply IH, Hnd'].
  intros Hin. apply in_map_iff in Hin. destruct Hin as [f [Ef Hf]].
  apply in_flat_map in Hf. destruct Hf as [a' [Ha' Hf]].
  rewrite check_literalOf in Hf.
  destruct (literalOf a') as [l'|] eqn:El'; [|contradiction].
  destruct Hf as [<-|[]]. simpl in Ef.
  apply literalOf_path in El, El'. rewrite El, El' in Ef.
  injection Ef as Ef. apply Hnotin. rewrite <- Ef. apply in_map, Ha'.
Qed.

(** X15.  Every finding of a run carries the message [inlineType] and is
    keyed at an object-type literal that is the type of an annotation; its
    fix is the one computed from that annotation. *)
Theorem finding_is_a_literal_under_an_annotation (sourceCode : string)
    (program : Node) (f : Finding) :
  In f (runRule sourceCode program) ->
  f_messageId f = "inlineType"
  /\ type (focus (f_node f)) = "TSTypeLiteral"
  /\ exists a, parent (f_node f) = Some a
               /\ type (focus a) = "TSTypeAnnotation"
               /\ f_fix f = fixOf sourceCode a (f_node f).
Proof.
  intros H. apply finding_origin in H.
  destruct H as (q & a & _ & _ & Hl & Ef).
  pose proof (literalOf_parent _ _ Hl) as Hp.
  apply literalOf_spec in Hl. destruct Hl as (Ha & _ & Hlit).
  split; [rewrite Ef; reflexivity|]. split; [exact Hlit|].
  exists a. split; [exact Hp|]. split; [exact Ha|].
  rewrite Ef at 1. reflexivity.
Qed.

Lemma finding_is_a_literal_under_an_annotation_witness :
  let f := mkFinding (descendFrom cfg_annotation [s_typeAnnotation])
             "inlineType"
             (fixOf cfg_text cfg_annotation
                (descendFrom cfg_annotation [s_typeAnnotation])) in
  In f (runRule cfg_text cfg_program)
  /\ type (focus (f_node f)) = "TSTypeLiteral"
  /\ exists a, parent (f_node f) = Some a
               /\ type (focus a) = "TSTypeAnnotation"
               /\ f_fix f = fixOf cfg_text a (f_node f).
Proof.
  cbv zeta.
  assert (H : In (mkFinding (descendFrom cfg_annotation [s_typeAnnotation])
                    "inlineType"
                    (fixOf cfg_text cfg_annotation
                       (descendFrom cfg_annotation [s_typeAnnotation])))
                 (runRule cfg_text cfg_program))
    by (vm_compute; auto).
  split; [exact H|].
  exact (proj2 (finding_is_a_literal_under_an_annotation cfg_text
                  cfg_program _ H)).
Defined.

(** X16.  A file without a variable declarator, a class property and a
    function has no finding. *)
Theorem no_handler_no_finding (sourceCode : string) (program : Node) :
  unselected (mkCursor program []) = true ->
  runRule sourceCode program = [].
Proof.
  unfold unselected, runRule. cbn [focus up]. intros H.
  rewrite forallb_forall in H. apply flat_map_nil. intros c Hc.
  apply visit_unselected. apply negb_true_iff. apply H, Hc.
Qed.

Lemma no_handler_no_finding_witness :
  unselected (mkCursor aliasOnly_program []) = true
  /\ runRule "type T = { a: number };" aliasOnly_program = [].
Proof.
  split; [reflexivity|].
  exact (no_handler_no_finding "type T = { a: number };" aliasOnly_program
           eq_refl).
Defined.

(** X17.  The literal in the annotation of a node that hangs under a
    property the handlers never read (the left side of a parameter with a
    default value, for one) is the node of no finding, unless that node is a
    class property. *)
Theorem unread_property_not_reported (sourceCode : string) (program : Node)
    (owner a l : Cursor) (j : nat) :
  In owner (walk [] program) ->
  sitsUnder (s_other j) owner = true ->
  type (focus owner) <> "PropertyDefinition" ->
  child s_typeAnnotation owner = Some a ->
  child s_typeAnnotation a = Some l ->
  filter (keyedAt l) (runRule sourceCode program) = [].
Proof.
  intros Ho Hs Ht Ha Hl. apply in_walk in Ho.
  assert (Hpath : path l = s_typeAnnotation :: s_typeAnnotation :: path owner)
    by (rewrite (child_path _ _ _ Hl), (child_path _ _ _ Ha); reflexivity).
  apply filter_none. intros f Hf.
  destruct (keyedAt l f) eqn:E; [|reflexivity]. exfalso.
  unfold keyedAt in E. apply path_eqb_eq in E.
  apply finding_origin in Hf. destruct Hf as (q & a' & Hq & Ha' & Hl' & _).
  apply literalOf_path in Hl'. rewrite Hl', Hpath in E.
  apply sitsUnder_path in Hs. destruct Hs as [rest Hs]. rewrite Hs in E.
  apply sites_slot in Ha'.
  destruct Ha' as [Hty Hsl|Hty Hsl|Hty Hsl|i Hty Hsl|i Hty Hsl];
    rewrite Hsl in E; try discriminate.
  injection E as E. rewrite <- Hs in E.
  apply (same_path_same_node _ _ _ _ Hq Ho) in E. subst q. contradiction.
Qed.

Lemma unread_property_not_reported_witness :
  In defaultParam_identifier (walk [] defaultParam_program)
  /\ type (focus (descendFrom defaultParam_annotation [s_typeAnnotation]))
     = "TSTypeLiteral"
  /\ filter (keyedAt (descendFrom defaultParam_annotation [s_typeAnnotation]))
       (runRule defaultParam_text defaultParam_program) = [].
Proof.
  assert (H : In defaultParam_identifier (walk [] defaultParam_program))
    by (vm_compute; auto 10).
  split; [exact H|]. split; [reflexivity|].
  refine (unread_property_not_reported defaultParam_text defaultParam_program
            defaultParam_identifier defaultParam_annotation _ 0
            H eq_refl _ eq_refl eq_refl).
  discriminate.
Defined.

(** X18.  In a tree in which no node starts before its parent, the alias is
    inserted at or before the start of the literal: the two edits of a fix
    are in order and do not overlap. *)
Theorem fix_edits_in_order (sourceCode : string) (program : Node)
    (f : Finding) (edits : list Fix) :
  In f (runRule sourceCode program) ->
  f_fix f = Some edits ->
  startsNest (focus (f_node f)) (up (f_node f)) = true ->
  exists insertion replacement,
    edits = [insertion; replacement]
    /\ fst (fix_range insertion) = snd (fix_range insertion)
    /\ snd (fix_range insertion) <= fst (fix_range replacement)
    /\ fix_range replacement = range (focus (f_node f)).
Proof.
  intros Hf Hfix Hnest. apply finding_origin in Hf.
  destruct Hf as (q & a & _ & _ & Hl & Ef). rewrite Ef in Hfix.
  simpl in Hfix. unfold fixOf in Hfix.
  destruct (findInsertionPointAncestor a) as [anchor|] eqn:Ea;
    [|discriminate].
  injection Hfix as <-. eexists. eexists. split; [reflexivity|].
  split; [reflexivity|]. split; [|reflexivity]. simpl.
  apply literalOf_spec in Hl. destruct Hl as (Hta & Hc & _).
  apply anchor_above_annotation in Ea; [|exact Hta].
  apply child_up in Hc. destruct Hc as [Hup _].
  apply (startsNest_ancestors _ _ _ Hnest). rewrite Hup. simpl. now right.
Qed.

Lemma fix_edits_in_order_witness :
  map f_fix (runRule cfg_text cfg_program)
  = [Some [ mkFix (0, 0)
              ("type CfgType = { host: string; port: number };"
               ++ nl ++ nl)%string;
            mkFix (9, 39) "CfgType" ]]
  /\ exists insertion replacement,
       [ mkFix (0, 0)
           ("type CfgType = { host: string; port: number };"
            ++ nl ++ nl)%string;
         mkFix (9, 39) "CfgType" ] = [insertion; replacement]
       /\ fst (fix_range insertion) = snd (fix_range insertion)
       /\ snd (fix_range insertion) <= fst (fix_range replacement)
       /\ fix_range replacement = (9, 39).
Proof.
  split; [reflexivity|].
  assert (H : In (mkFinding (descendFrom cfg_annotation [s_typeAnnotation])
                    "inlineType"
                    (Some [ mkFix (0, 0)
                              ("type CfgType = { host: string; port: number };"
                               ++ nl ++ nl)%string;
                            mkFix (9, 39) "CfgType" ]))
                 (runRule cfg_text cfg_program))
    by (vm_compute; auto).
  exact (fix_edits_in_order cfg_text cfg_program _ _ H eq_refl eq_refl).
Defined.

(** X19.  In a tree in which class properties are elements of class bodies,
    no two findings of a run are keyed at the same node. *)
Theorem findings_have_distinct_nodes (sourceCode : string) (program : Node) :
  propertiesInClassBodies program = true ->
  NoDup (map (fun f => path (f_node f)) (runRule sourceCode program)).
Proof.
  intros Hwf. rewrite runRule_sites.
  apply check_keys_NoDup, allSites_NoDup, Hwf.
Qed.

Lemma findings_have_distinct_nodes_witness :
  List.length (runRule arrow_text arrow_program) = 2
  /\ NoDup (map (fun f => path (f_node f)) (runRule arrow_text arrow_program)).
Proof.
  split; [reflexivity|].
  exact (findings_have_distinct_nodes arrow_text arrow_program eq_refl).
Defined.

(** X20.  No finding is keyed at a member of an object-type literal or at
    anything inside the member, as long as the member holds no node a
    handler is registered for. *)
Theorem literal_member_not_reported (sourceCode : string) (program : Node)
    (member : Cursor) (j : nat) (literal : Node) (ups : list (step * Node))
    (f : Finding) (e : list step) :
  In member (walk [] program) ->
  up member = (s_other j, literal) :: ups ->
  type literal = "TSTypeLiteral" ->
  unselected member = true ->
  In f (runRule sourceCode program) ->
  path (f_node f) <> e ++ path member.
Proof.
  intros Hm Hup _ Hun Hf. apply in_walk in Hm.
  apply (no_finding_under_other sourceCode program member j (map fst ups));
    auto.
  unfold path. rewrite Hup. reflexivity.
Qed.

Lemma literal_member_not_reported_witness :
  let f := mkFinding nested_literal "inlineType"
             (fixOf nested_text nested_annotation nested_literal) in
  In nested_member_cursor (walk [] nested_program)
  /\ unselected nested_member_cursor = true
  /\ In f (runRule nested_text nested_program)
  /\ path (f_node f)
     <> [s_typeAnnotation; s_typeAnnotation] ++ path nested_member_cursor.
Proof.
  cbv zeta.
  assert (H6 : In nested_member_cursor (walk [] nested_program))
    by (vm_compute; auto 10).
  assert (H7 : unselected nested_member_cursor = true) by reflexivity.
  assert (H8 : In (mkFinding nested_literal "inlineType"
                     (fixOf nested_text nested_annotation nested_literal))
                  (runRule nested_text nested_program))
    by (vm_compute; auto).
  repeat (split; [assumption|]).
  exact (literal_member_not_reported nested_text nested_program
           nested_member_cursor 0 nested_outer _ _
           [s_typeAnnotation; s_typeAnnotation]
           H6 eq_refl eq_refl H7 H8).
Defined.

Lemma isFunction_kinds t :
  isFunction t = true ->
  (t =? "VariableDeclarator") = false /\ (t =? "PropertyDefinition") = false.
Proof.
  unfold isFunction. intros H.
  repeat (apply orb_prop in H; destruct H as [H|H]);
    apply String.eqb_eq in H; subst; split; reflexivity.
Qed.

(** X21.  An object-type literal in an annotation that a handler reads (the
    annotation of the [id] of a variable declarator, of a class property,
    the return type of a function, the annotation of one of its parameters
    or, for a parameter property without annotation of its own, of its
    parameter) is the node of exactly one finding of the run, in a tree in
    which class properties are elements of class bodies. *)
Theorem read_annotation_reported_once (sourceCode : string) (program : Node)
    (q a l : Cursor) :
  propertiesInClassBodies program = true ->
  In q (walk [] program) ->
  (type (focus q) = "VariableDeclarator"
   /\ exists i, child s_id q = Some i /\ child s_typeAnnotation i = Some a)
  \/ (type (focus q) = "PropertyDefinition"
      /\ child s_typeAnnotation q = Some a)
  \/ (isFunction (type (focus q)) = true
      /\ (child s_returnType q = Some a
          \/ exists i p,
               child (s_params i) q = Some p
               /\ (child s_typeAnnotation p = Some a
                   \/ (child s_typeAnnotation p = None
                       /\ type (focus p) = "TSParameterProperty"
                       /\ exists pp, child s_parameter p = Some pp
                                     /\ child s_typeAnnotation pp
                                        = Some a)))) ->
  type (focus a) = "TSTypeAnnotation" ->
  child s_typeAnnotation a = Some l ->
  type (focus l) = "TSTypeLiteral" ->
  filter (keyedAt l) (runRule sourceCode program)
  = [mkFinding l "inlineType" (fixOf sourceCode a l)].
Proof.
  intros Hwf Hq Hread Ha Hl Ht.
  assert (Hsite : In a (sites q)).
  { unfold sites.
    destruct Hread as [[Hv (i & Hi & Hia)]|[[Hp Hpa]|[Hf Hfa]]].
    - rewrite Hv, Hi. cbn. apply in_optList, Hia.
    - destruct (type (focus q) =? "VariableDeclarator") eqn:Ev;
        [apply String.eqb_eq in Ev; congruence|].
      rewrite Hp. cbn. apply in_optList, Hpa.
    - destruct (isFunction_kinds _ Hf) as [E1 E2]. rewrite E1, E2, Hf.
      apply in_or_app. destruct Hfa as [Hr|(i & p & Hp & Hpa)].
      + left. apply in_optList, Hr.
      + right. apply in_flat_map. exists p. split.
        * apply in_paramsOf. eauto.
        * unfold paramSites.
          destruct Hpa as [Hpa|(Hn & Hpp & pp & Hc & Hppa)].
          -- rewrite Hpa. now left.
          -- rewrite Hn, Hpp, Hc. cbn. apply in_optList, Hppa. }
  rewrite runRule_sites. apply filter_unique.
  - apply allSites_NoDup, Hwf.
  - apply in_flat_map. eauto.
  - apply literalOf_spec. auto.
Qed.

Lemma read_annotation_reported_once_witness :
  In paramProp_identifier (walk [] paramProp_program)
  /\ filter (keyedAt (descendFrom paramProp_annotation [s_typeAnnotation]))
       (runRule paramProp_text paramProp_program)
     = [mkFinding (descendFrom paramProp_annotation [s_typeAnnotation])
          "inlineType"
          (fixOf paramProp_text paramProp_annotation
             (descendFrom paramProp_annotation [s_typeAnnotation]))].
Proof.
  split; [vm_compute; auto 20|].
  refine (read_annotation_reported_once paramProp_text paramProp_program
            (descendFrom (mkCursor paramProp_program [])
               [s_other 0; s_other 0; s_other 0; s_other 0])
            paramProp_annotation _ eq_refl _ _ eq_refl eq_refl eq_refl).
  - vm_compute; auto 20.
  - right. right. split; [reflexivity|]. right.
    exists 0,
      (descendFrom (mkCursor paramProp_program [])
         [s_other 0; s_other 0; s_other 0; s_other 0; s_params 0]).
    split; [reflexivity|]. right. split; [reflexivity|].
    split; [reflexivity|]. exists paramProp_identifier.
    split; reflexivity.
Defined.
